(** * Project selector expressions of rush-lib

    A shallow embedding of [RushProjectSelector] (api/RushProjectSelector.ts),
    [JsonFileSelectorParser] (logic/selectors/JsonFileSelectorParser.ts) and
    [SelectorExpressionJsonFile] (api/SelectorExpressionJsonFile.ts), and the
    properties of expression evaluation that follow from that code. *)

From stdpp Require Import base option list strings pretty gmap.

Local Open Scope string_scope.
Set Warnings "-register-all".

(** ** JavaScript values

    Selector expressions are plain JavaScript data: they come from
    [JSON.parse] or from an object literal in a user script.  The evaluator
    inspects them dynamically (property reads, truthiness, [===], template
    literals), so the values are modelled untyped. *)

Inductive JsValue : Type :=
| JsUndefined
| JsNull
| JsBoolean (b : bool)
| JsNumber (n : Z)                                (* integer-valued numbers *)
| JsString (s : string)
| JsArray (elements : list JsValue)
| JsObject (properties : list (string * JsValue)) (* own data properties, keys distinct *)
| JsNative (name : string).                       (* a built-in method such as [].filter *)

(** The errors the evaluator can end with.  [SelectorError] is the class of
    logic/selectors/SelectorError.ts; [TypeError] is raised by the runtime
    itself (reading a property of [undefined], calling a non-function), its
    engine-specific text is not modelled; [OtherError] is any other error
    raised by a collaborator (file I/O, JSON schema validation, git). *)
Inductive JsError : Type :=
| SelectorError (message : string)
| TypeError
| OtherError (name message : string).

Definition isSelectorError (e : JsError) : bool :=
  match e with SelectorError _ => true | _ => false end.

(** How a call ends: it returns, it throws, or it has not completed within
    the recursion budget of the model (see [selectExpression]). *)
Inductive Outcome (A : Type) : Type :=
| Returns (a : A)
| Throws (e : JsError)
| Unfinished.
Arguments Returns {A} a.
Arguments Throws {A} e.
Arguments Unfinished {A}.

#[global] Instance Outcome_ret : MRet Outcome := fun A a => Returns a.
#[global] Instance Outcome_bind : MBind Outcome := fun A B k m =>
  match m with
  | Returns a => k a
  | Throws e => Throws e
  | Unfinished => Unfinished
  end.

Definition completed {A} (o : Outcome A) : Prop := o <> Unfinished.

(** The double-quote character of the messages, by construction. *)
Definition dquote : string := String (Ascii.ascii_of_nat 34) EmptyString.

(** [!!v] *)
Definition truthy (v : JsValue) : bool :=
  match v with
  | JsUndefined | JsNull => false
  | JsBoolean b => b
  | JsNumber n => negb (Z.eqb n 0)
  | JsString s => negb (String.eqb s EmptyString)
  | JsArray _ | JsObject _ | JsNative _ => true
  end.

(** [v === 'literal'] *)
Definition strictEqualsString (v : JsValue) (literal : string) : bool :=
  match v with
  | JsString s => String.eqb s literal
  | _ => false
  end.

(** Lookup of an own property in an object's property list. *)
Fixpoint ownProperty (key : string) (properties : list (string * JsValue)) : option JsValue :=
  match properties with
  | [] => None
  | (k, v) :: rest => if String.eqb k key then Some v else ownProperty key rest
  end.

(** [v.key], for the property names the evaluator reads: [scope], [value],
    [filter], [arg], [op] and [args].  Reading a property of [undefined] or
    [null] throws; an absent property reads as [undefined]; primitives are
    boxed and their prototypes have none of these names, except that every
    array inherits the method [filter]. *)
Definition getProperty (v : JsValue) (key : string) : Outcome JsValue :=
  match v with
  | JsUndefined | JsNull => Throws TypeError
  | JsObject properties => Returns (default JsUndefined (ownProperty key properties))
  | JsArray _ => Returns (if String.eqb key "filter" then JsNative "filter" else JsUndefined)
  | JsBoolean _ | JsNumber _ | JsString _ | JsNative _ => Returns JsUndefined
  end.

(** [v[i]] for an index [i]: an element of an array, a one-character string
    of a string (characters counted as the string type has them), the
    property named by the decimal index of an object. *)
Definition getIndex (v : JsValue) (i : nat) : Outcome JsValue :=
  match v with
  | JsUndefined | JsNull => Throws TypeError
  | JsArray elements => Returns (default JsUndefined (elements !! i))
  | JsString s =>
      Returns (match String.get i s with
               | Some c => JsString (String c EmptyString)
               | None => JsUndefined
               end)
  | JsObject properties => Returns (default JsUndefined (ownProperty (pretty i) properties))
  | JsBoolean _ | JsNumber _ | JsNative _ => Returns JsUndefined
  end.

(** [`${v}`]: the string conversion of a template literal, for data values
    (objects without [toString] or [valueOf] properties of their own, numbers
    small enough to print in plain decimal notation). *)
Fixpoint toString (v : JsValue) : string :=
  match v with
  | JsUndefined => "undefined"
  | JsNull => "null"
  | JsBoolean b => if b then "true" else "false"
  | JsNumber n => pretty n
  | JsString s => s
  | JsArray elements =>
      (fix join (l : list JsValue) : string :=
         match l with
         | [] => EmptyString
         | x :: rest =>
             let item := match x with
                         | JsUndefined | JsNull => EmptyString
                         | _ => toString x
                         end in
             match rest with
             | [] => item
             | _ :: _ => item ++ "," ++ join rest
             end
         end) elements
  | JsObject _ => "[object Object]"
  | JsNative name => "function " ++ name ++ "() { [native code] }"
  end.

(** [s.startsWith(prefix)] on strings. *)
Definition startsWith (s prefix : string) : bool := String.prefix prefix s.

(** The messages of the [SelectorError]s: the fail-safe branch of
    [selectExpression], *)
Definition invalidObjectMessage (context : string) : string :=
  "Invalid object encountered in selector expression in " ++ context ++ ".".

(** [_evaluateSelector] for a scope without a parser, *)
Definition unknownScopeMessage (scope value : JsValue) (context : string) : string :=
  "Unknown selector scope '" ++ toString scope ++ "' for value '" ++ toString value
  ++ "' in " ++ context ++ ".".

(** and the JSON-file parser for a file that does not exist. *)
Definition fileNotFoundMessage (absolutePath context : string) : string :=
  "Unable to find JSON file at " ++ dquote ++ absolutePath ++ dquote ++ " in " ++ context ++ ".".

(** ** The monorepo and the collaborators of the selector

    [RushConfiguration], the four scope parsers other than the JSON-file one,
    the closure operations of logic/Selection.ts, [JsonFile] and [FileSystem]
    of node-core-library, and Node's [path] and [process] are not part of the
    embedded code; the evaluator is parameterised by them. *)

(** The argument of [ISelectorParser.evaluateSelectorAsync]. *)
Record IEvaluateSelectorOptions : Type := {
  unscopedSelector : JsValue;
  terminal : JsValue;
  context : string
}.

(** The classes registered as selector scopes. *)
Inductive ISelectorParser : Type :=
| NamedProjectSelectorParser
| GitChangedProjectSelectorParser
| TagProjectSelectorParser
| VersionPolicyProjectSelectorParser
| JsonFileSelectorParser.

Section Monorepo.
Context {Project : Type} `{EqDecision Project}.

Record RushConfiguration : Type := {
  projects : list Project;
  rushJsonFolder : string
}.

Record Collaborators : Type := {
  (* Node *)
  process_cwd : string;
  path_resolve : string -> string -> string;
  (* node-core-library *)
  JsonFile_loadAndValidateAsync : string -> Outcome JsValue;
  FileSystem_isNotExistError : JsError -> bool;
  (* logic/selectors: evaluateSelectorAsync of the parsers that do not re-enter *)
  Named_evaluateSelectorAsync : IEvaluateSelectorOptions -> Outcome (list Project);
  GitChanged_evaluateSelectorAsync : IEvaluateSelectorOptions -> Outcome (list Project);
  Tag_evaluateSelectorAsync : IEvaluateSelectorOptions -> Outcome (list Project);
  VersionPolicy_evaluateSelectorAsync : IEvaluateSelectorOptions -> Outcome (list Project);
  (* logic/Selection.ts, sets given by their elements in insertion order *)
  Selection_expandAllDependencies : list Project -> list Project;
  Selection_expandAllConsumers : list Project -> list Project;
  Selection_intersection : list Project -> list Project -> list Project;
  Selection_union : list Project -> list Project -> list Project
}.

(** [new Set(iterable)]: the elements in order of first insertion. *)
Definition new_Set (l : list Project) : list Project :=
  foldl (fun acc x => if decide (x ∈ acc) then acc else (acc ++ [x])%list) [] l.

Variable rushConfig : RushConfiguration.
Variable host : Collaborators.

(** *** api/SelectorExpressionJsonFile.ts *)

Definition loadAsync (jsonFilePath : string) : Outcome JsValue :=
  JsonFile_loadAndValidateAsync host jsonFilePath.

Definition tryLoadAsync (jsonFilePath : string) : Outcome JsValue :=
  match loadAsync jsonFilePath with
  | Returns json => Returns json
  | Throws error =>
      if FileSystem_isNotExistError host error then Returns JsUndefined
      else Throws error
  | Unfinished => Unfinished
  end.

(** *** logic/selectors/JsonFileSelectorParser.ts *)

Definition getAbsolutePath (file : string) : string :=
  if startsWith file "." then path_resolve host (process_cwd host) file
  else path_resolve host (rushJsonFolder rushConfig) file.

(** [projectSelector] is the [IRushProjectSelector] the parser was
    constructed with.  A selector value that is not a string has no
    [startsWith] method: the call inside [getAbsolutePath] throws. *)
Definition JsonFile_evaluateSelectorAsync
    (projectSelector : JsValue -> string -> Outcome (list Project))
    (options : IEvaluateSelectorOptions) : Outcome (list Project) :=
  absolutePath ← match unscopedSelector options with
                 | JsString file => Returns (getAbsolutePath file)
                 | _ => Throws TypeError
                 end;
  expr ← tryLoadAsync absolutePath;
  if negb (truthy expr) then
    Throws (SelectorError (fileNotFoundMessage absolutePath (context options)))
  else
    projectSelector expr
      ("JSON file " ++ toString (unscopedSelector options) ++ " in " ++ context options).

(** *** api/RushProjectSelector.ts *)

(** The registry filled by the constructor, one [set] after the other. *)
Definition _scopes : gmap string ISelectorParser :=
  <["json" := JsonFileSelectorParser]>
    (<["version-policy" := VersionPolicyProjectSelectorParser]>
       (<["tag" := TagProjectSelectorParser]>
          (<["git" := GitChangedProjectSelectorParser]>
             (<["name" := NamedProjectSelectorParser]> ∅)))).

(** [this._scopes.get(key)]: only a string can equal a registered key. *)
Definition _scopes_get (key : JsValue) : option ISelectorParser :=
  match key with
  | JsString scope => _scopes !! scope
  | _ => None
  end.

Definition evaluateSelectorAsync (parser : ISelectorParser)
    (this : JsValue -> string -> Outcome (list Project))
    (options : IEvaluateSelectorOptions) : Outcome (list Project) :=
  match parser with
  | NamedProjectSelectorParser => Named_evaluateSelectorAsync host options
  | GitChangedProjectSelectorParser => GitChanged_evaluateSelectorAsync host options
  | TagProjectSelectorParser => Tag_evaluateSelectorAsync host options
  | VersionPolicyProjectSelectorParser => VersionPolicy_evaluateSelectorAsync host options
  | JsonFileSelectorParser => JsonFile_evaluateSelectorAsync this options
  end.

Definition _isSelector (expr : JsValue) : Outcome bool :=
  scope ← getProperty expr "scope"; mret (truthy scope).

Definition _isFilter (expr : JsValue) : Outcome bool :=
  filter ← getProperty expr "filter"; mret (truthy filter).

Definition _isOperator (expr : JsValue) : Outcome bool :=
  op ← getProperty expr "op"; mret (truthy op).

(** In the three evaluators [this] stands for [this.selectExpression]. *)
Definition _evaluateSelector (this : JsValue -> string -> Outcome (list Project))
    (selector : JsValue) (context : string) : Outcome (list Project) :=
  scope ← getProperty selector "scope";
  match _scopes_get scope with
  | None =>
      value ← getProperty selector "value";
      Throws (SelectorError (unknownScopeMessage scope value context))
  | Some parser =>
      value ← getProperty selector "value";
      evaluateSelectorAsync parser this
        {| unscopedSelector := value; terminal := JsUndefined; context := context |}
  end.

Definition _evaluateFilter (this : JsValue -> string -> Outcome (list Project))
    (expr : JsValue) (context : string) : Outcome (list Project) :=
  filter ← getProperty expr "filter";
  if strictEqualsString filter "to" then
    exprArg ← getProperty expr "arg";
    arg ← this exprArg context;
    mret (Selection_expandAllDependencies host arg)
  else if strictEqualsString filter "from" then
    exprArg ← getProperty expr "arg";
    arg ← this exprArg context;
    mret (Selection_expandAllDependencies host (Selection_expandAllConsumers host arg))
  else if strictEqualsString filter "only" then
    exprArg ← getProperty expr "arg";
    arg ← this exprArg context;
    mret arg
  else
    Throws (SelectorError ("Unknown filter '" ++ toString filter
                           ++ "' encountered in selector expression in " ++ context ++ ".")).

(** [expr.args[i]] *)
Definition argsAt (expr : JsValue) (i : nat) : Outcome JsValue :=
  args ← getProperty expr "args"; getIndex args i.

Definition _evaluateOperator (this : JsValue -> string -> Outcome (list Project))
    (expr : JsValue) (context : string) : Outcome (list Project) :=
  op ← getProperty expr "op";
  if strictEqualsString op "not" then
    arg0 ← argsAt expr 0;
    result ← this arg0 context;
    mret (filter (fun p => p ∉ result) (projects rushConfig))
  else if strictEqualsString op "and" then
    arg0 ← argsAt expr 0;
    left ← this arg0 context;
    arg1 ← argsAt expr 1;
    right ← this arg1 context;
    mret (Selection_intersection host (new_Set left) (new_Set right))
  else if strictEqualsString op "or" then
    arg0 ← argsAt expr 0;
    left ← this arg0 context;
    arg1 ← argsAt expr 1;
    right ← this arg1 context;
    mret (Selection_union host (new_Set left) (new_Set right))
  else
    Throws (SelectorError ("Unknown operator '" ++ toString op
                           ++ "' in selector expression in " ++ context ++ ".")).

(** One activation of [selectExpression], its recursive calls going to [this]. *)
Definition selectExpression_body (this : JsValue -> string -> Outcome (list Project))
    (expr : JsValue) (context : string) : Outcome (list Project) :=
  isSelector ← _isSelector expr;
  if (isSelector : bool) then _evaluateSelector this expr context
  else
    isFilter ← _isFilter expr;
    if (isFilter : bool) then _evaluateFilter this expr context
    else
      isOperator ← _isOperator expr;
      if (isOperator : bool) then _evaluateOperator this expr context
      else
        Throws (SelectorError (invalidObjectMessage context)).

(** [selectExpression].  The recursion is not structural: a [json] selector
    continues with an expression read from a file.  [depth] bounds the
    nesting of activations; a call that needs more is [Unfinished]. *)
Fixpoint selectExpression (depth : nat) (expr : JsValue) (context : string)
    : Outcome (list Project) :=
  match depth with
  | 0 => Unfinished
  | S depth' => selectExpression_body (selectExpression depth') expr context
  end.

(** The call [selectExpression(expr, context)] completes with [result]. *)
Definition evaluates (expr : JsValue) (context : string)
    (result : Outcome (list Project)) : Prop :=
  completed result /\ exists depth, selectExpression depth expr context = result.

(** The call never completes, however deep the recursion is allowed to go. *)
Definition diverges (expr : JsValue) (context : string) : Prop :=
  forall depth, selectExpression depth expr context = Unfinished.

End Monorepo.

Arguments RushConfiguration Project : clear implicits.
Arguments Collaborators Project : clear implicits.

(** ** The three shapes of [ExpressionJson] (api/SelectorExpressionJson.ts) *)

(** [{ scope, value }] *)
Definition ISelectorJson (scope value : string) : JsValue :=
  JsObject [("scope", JsString scope); ("value", JsString value)].

(** [{ filter, arg }] *)
Definition IFilterJson (filter : string) (arg : JsValue) : JsValue :=
  JsObject [("filter", JsString filter); ("arg", arg)].

(** [{ op, args }] *)
Definition IOperatorJson (op : string) (args : list JsValue) : JsValue :=
  JsObject [("op", JsString op); ("args", JsArray args)].

(** [needle] occurs in [text]. *)
Definition occursIn (needle text : string) : Prop :=
  exists before after, text = before ++ needle ++ after.

(** The same elements, regardless of order and repetition. *)
Definition sameSet {A} (l1 l2 : list A) : Prop := forall x, x ∈ l1 <-> x ∈ l2.

(** [f <$> outcome] *)
Definition mapOutcome {A B} (f : A -> B) (o : Outcome A) : Outcome B :=
  a ← o; mret (f a).

(** [o] is [o'] unless it is unfinished: the order in which deeper recursion
    budgets refine shallower ones. *)
Definition approximates {A} (o o' : Outcome A) : Prop :=
  o = Unfinished \/ o = o'.

Definition refines {A} (this this' : JsValue -> string -> Outcome A) : Prop :=
  forall expr context, approximates (this expr context) (this' expr context).

(** [object.key] for an object with the own properties [properties]. *)
Definition property (properties : list (string * JsValue)) (key : string) : JsValue :=
  default JsUndefined (ownProperty key properties).

(** The scope names the constructor registers. *)
Definition registeredScopes : list string :=
  ["name"; "git"; "tag"; "version-policy"; "json"].

(** [projects.filter((p) => !result.includes(p))], the result of [not]. *)
Definition complement {Project : Type} `{EqDecision Project}
    (rushConfig : RushConfiguration Project) (result : list Project) : list Project :=
  filter (fun p => p ∉ result) (projects rushConfig).

(** A call that, when it returns, returns projects of the monorepo only. *)
Definition withinMonorepo {Project : Type}
    (rushConfig : RushConfiguration Project) (o : Outcome (list Project)) : Prop :=
  forall l, o = Returns l -> l ⊆ projects rushConfig.

(** Collaborators that select from the monorepo: the scope parsers return
    projects of the monorepo and the operations of [Selection] stay inside it. *)
Definition selectsFromMonorepo {Project : Type}
    (rushConfig : RushConfiguration Project) (host : Collaborators Project) : Prop :=
  (forall options, withinMonorepo rushConfig (Named_evaluateSelectorAsync host options)) /\
  (forall options, withinMonorepo rushConfig (GitChanged_evaluateSelectorAsync host options)) /\
  (forall options, withinMonorepo rushConfig (Tag_evaluateSelectorAsync host options)) /\
  (forall options, withinMonorepo rushConfig (VersionPolicy_evaluateSelectorAsync host options)) /\
  (forall l, l ⊆ projects rushConfig ->
             Selection_expandAllDependencies host l ⊆ projects rushConfig) /\
  (forall l, l ⊆ projects rushConfig ->
             Selection_expandAllConsumers host l ⊆ projects rushConfig) /\
  (forall a b, a ⊆ projects rushConfig -> b ⊆ projects rushConfig ->
               Selection_intersection host a b ⊆ projects rushConfig) /\
  (forall a b, a ⊆ projects rushConfig -> b ⊆ projects rushConfig ->
               Selection_union host a b ⊆ projects rushConfig).

(** A value that is none of the three shapes as [selectExpression] tells
    them apart: an object none of whose properties [scope], [filter] and [op]
    is truthy, or a value that is not an object at all. *)
Definition matchesNoVariant (expr : JsValue) : Prop :=
  match expr with
  | JsObject properties =>
      truthy (property properties "scope") = false /\
      truthy (property properties "filter") = false /\
      truthy (property properties "op") = false
  | _ => True
  end.

(** The message of [_evaluateFilter] for a filter it does not know. *)
Definition unknownFilterMessage (filter : JsValue) (context : string) : string :=
  "Unknown filter '" ++ toString filter ++ "' encountered in selector expression in "
  ++ context ++ ".".

(** An expression that throws under no context: it returns or it never
    completes. *)
Definition neverThrows {Project : Type} `{EqDecision Project}
    (rushConfig : RushConfiguration Project) (host : Collaborators Project)
    (expr : JsValue) : Prop :=
  forall context error, ~ evaluates rushConfig host expr context (Throws error).

(** The evaluation of the expression comes to a [json] selector for one of
    the files [onCycle]: the expression is such a selector, or a filter or a
    [not] of an expression that comes to one, or an [and] or [or] whose left
    operand comes to one, or whose left operand never throws and whose right
    operand comes to one. *)
Inductive reachesCycle {Project : Type} `{EqDecision Project}
    (rushConfig : RushConfiguration Project) (host : Collaborators Project)
    (onCycle : string -> Prop) : JsValue -> Prop :=
| reaches_json value :
    onCycle value ->
    reachesCycle rushConfig host onCycle (ISelectorJson "json" value)
| reaches_filter filter X :
    filter ∈ ["to"; "from"; "only"] ->
    reachesCycle rushConfig host onCycle X ->
    reachesCycle rushConfig host onCycle (IFilterJson filter X)
| reaches_not X :
    reachesCycle rushConfig host onCycle X ->
    reachesCycle rushConfig host onCycle (IOperatorJson "not" [X])
| reaches_left op L R :
    op ∈ ["and"; "or"] ->
    reachesCycle rushConfig host onCycle L ->
    reachesCycle rushConfig host onCycle (IOperatorJson op [L; R])
| reaches_right op L R :
    op ∈ ["and"; "or"] ->
    neverThrows rushConfig host L ->
    reachesCycle rushConfig host onCycle R ->
    reachesCycle rushConfig host onCycle (IOperatorJson op [L; R]).

(** The files [onCycle] include one another in a circle: each of them holds
    an expression whose evaluation comes to a [json] selector for one of
    them. *)
Definition inclusionCycle {Project : Type} `{EqDecision Project}
    (rushConfig : RushConfiguration Project) (host : Collaborators Project)
    (onCycle : string -> Prop) : Prop :=
  forall value,
    onCycle value ->
    exists fileExpr,
      JsonFile_loadAndValidateAsync host (getAbsolutePath rushConfig host value)
      = Returns fileExpr /\
      reachesCycle rushConfig host onCycle fileExpr.

(** An operator node [node] with operands [L] and [R] evaluates both, the
    left one first: it completes exactly when [L] completes and either [L]
    throws (the node throws the same error, whatever [R] would do) or [L]
    returns and [R] completes too (the node throws the error of [R], or
    returns [combine] of the two results). *)
Definition evaluatesBothInOrder {Project : Type} `{EqDecision Project}
    (rushConfig : RushConfiguration Project) (host : Collaborators Project)
    (node L R : JsValue) (context : string)
    (combine : list Project -> list Project -> list Project) : Prop :=
  forall result,
    evaluates rushConfig host node context result <->
    exists left,
      evaluates rushConfig host L context left /\
      match left with
      | Returns l =>
          exists right,
            evaluates rushConfig host R context right /\
            result = mapOutcome (combine l) right
      | Throws e => result = Throws e
      | Unfinished => False
      end.

(** ** A sample monorepo

    Three projects, A depending on B and B on C, tags [frontend] = {A, B} and
    [backend] = {C}, and a few expression files under the repository root.
    The collaborators are stand-ins with the behaviour their callers rely on;
    they serve to run the evaluator on concrete expressions. *)
Module Sample.

Definition rushConfig : RushConfiguration string :=
  {| projects := ["A"; "B"; "C"]; rushJsonFolder := "/repo" |}.

Definition dependencies (p : string) : list string :=
  if String.eqb p "A" then ["B"] else if String.eqb p "B" then ["C"] else [].

Definition consumers (p : string) : list string :=
  if String.eqb p "C" then ["B"] else if String.eqb p "B" then ["A"] else [].

Fixpoint closure (edges : string -> list string) (rounds : nat) (l : list string)
    : list string :=
  match rounds with
  | 0 => new_Set l
  | S rounds' => closure edges rounds' (l ++ flat_map edges l)%list
  end.

Definition byName (options : IEvaluateSelectorOptions) : Outcome (list string) :=
  match unscopedSelector options with
  | JsString name =>
      if bool_decide (name ∈ projects rushConfig) then Returns [name]
      else Throws (SelectorError ("The project '" ++ name ++ "' does not exist in "
                                  ++ context options ++ "."))
  | _ => Throws TypeError
  end.

Definition byTag (options : IEvaluateSelectorOptions) : Outcome (list string) :=
  match unscopedSelector options with
  | JsString tag =>
      Returns (if String.eqb tag "frontend" then ["A"; "B"]
               else if String.eqb tag "backend" then ["C"] else [])
  | _ => Returns []
  end.

Definition nothing (options : IEvaluateSelectorOptions) : Outcome (list string) :=
  Returns [].

(** The files of the repository; a file that fails schema validation and
    an absent file raise different errors. *)
Definition files (path : string) : Outcome JsValue :=
  if String.eqb path "/repo/frontend.json" then
    Returns (ISelectorJson "tag" "frontend")
  else if String.eqb path "/repo/self.json" then
    Returns (ISelectorJson "json" "self.json")
  else if String.eqb path "/repo/cycle.json" then
    Returns (IOperatorJson "or" [ISelectorJson "name" "A"; ISelectorJson "json" "cycle.json"])
  else if String.eqb path "/repo/ping.json" then
    Returns (ISelectorJson "json" "pong.json")
  else if String.eqb path "/repo/pong.json" then
    Returns (ISelectorJson "json" "ping.json")
  else if String.eqb path "/repo/invalid.json" then
    Throws (OtherError "Error" "JSON validation failed: /repo/invalid.json")
  else
    Throws (OtherError "Error" ("ENOENT: no such file or directory, open '" ++ path ++ "'")).

Definition isNotExistError (error : JsError) : bool :=
  match error with
  | OtherError _ message => String.prefix "ENOENT" message
  | _ => false
  end.

Definition host : Collaborators string := {|
  process_cwd := "/repo/apps/web";
  path_resolve := fun base file => base ++ "/" ++ file;
  JsonFile_loadAndValidateAsync := files;
  FileSystem_isNotExistError := isNotExistError;
  Named_evaluateSelectorAsync := byName;
  GitChanged_evaluateSelectorAsync := nothing;
  Tag_evaluateSelectorAsync := byTag;
  VersionPolicy_evaluateSelectorAsync := nothing;
  Selection_expandAllDependencies := closure dependencies 3;
  Selection_expandAllConsumers := closure consumers 3;
  Selection_intersection := fun a b => filter (fun p => p ∈ b) a;
  Selection_union := fun a b => new_Set (a ++ b)%list
|}.

Definition select := selectExpression rushConfig host.

End Sample.

(** ** Measures and conditions for the general properties *)

(** The number of arrays and objects in a value. *)
Fixpoint weight (v : JsValue) : nat :=
  match v with
  | JsArray elements =>
      S ((fix total (l : list JsValue) : nat :=
            match l with
            | [] => 0
            | x :: rest => weight x + total rest
            end) elements)
  | JsObject properties =>
      S ((fix total (l : list (string * JsValue)) : nat :=
            match l with
            | [] => 0
            | (_, x) :: rest => weight x + total rest
            end) properties)
  | _ => 0
  end.

(** Some object inside the value, at any depth, has the scope [json]. *)
Fixpoint usesJsonScope (v : JsValue) : bool :=
  match v with
  | JsArray elements =>
      (fix any (l : list JsValue) : bool :=
         match l with
         | [] => false
         | x :: rest => usesJsonScope x || any rest
         end) elements
  | JsObject properties =>
      strictEqualsString (property properties "scope") "json"
      || (fix any (l : list (string * JsValue)) : bool :=
            match l with
            | [] => false
            | (_, x) :: rest => usesJsonScope x || any rest
            end) properties
  | _ => false
  end.

(** [v] is a part of [parent]: lighter, and free of the [json] scope when
    [parent] is. *)
Definition partOf (parent v : JsValue) : Prop :=
  weight v < weight parent /\
  (usesJsonScope parent = false -> usesJsonScope v = false).

(** The four parsers that do not re-enter the evaluator always settle. *)
Definition parsersSettle {Project : Type} (host : Collaborators Project) : Prop :=
  (forall options, completed (Named_evaluateSelectorAsync host options)) /\
  (forall options, completed (GitChanged_evaluateSelectorAsync host options)) /\
  (forall options, completed (Tag_evaluateSelectorAsync host options)) /\
  (forall options, completed (VersionPolicy_evaluateSelectorAsync host options)).

(** Whatever [o] returns, [o'] returns too. *)
Definition sameReturn {A} (o o' : Outcome A) : Prop :=
  forall a, o = Returns a -> o' = Returns a.

(** A parser whose selection does not depend on the context string. *)
Definition contextBlind {Project : Type}
    (parser : IEvaluateSelectorOptions -> Outcome (list Project)) : Prop :=
  forall value context context',
    sameReturn
      (parser {| unscopedSelector := value; terminal := JsUndefined; context := context |})
      (parser {| unscopedSelector := value; terminal := JsUndefined; context := context' |}).

Definition parsersContextBlind {Project : Type} (host : Collaborators Project) : Prop :=
  contextBlind (Named_evaluateSelectorAsync host) /\
  contextBlind (GitChanged_evaluateSelectorAsync host) /\
  contextBlind (Tag_evaluateSelectorAsync host) /\
  contextBlind (VersionPolicy_evaluateSelectorAsync host).

(** The sample monorepo with one more file, whose content is [null]. *)
Module SampleNull.

Definition files (path : string) : Outcome JsValue :=
  if String.eqb path "/repo/null.json" then Returns JsNull else Sample.files path.

Definition host : Collaborators string := {|
  process_cwd := process_cwd Sample.host;
  path_resolve := path_resolve Sample.host;
  JsonFile_loadAndValidateAsync := files;
  FileSystem_isNotExistError := FileSystem_isNotExistError Sample.host;
  Named_evaluateSelectorAsync := Named_evaluateSelectorAsync Sample.host;
  GitChanged_evaluateSelectorAsync := GitChanged_evaluateSelectorAsync Sample.host;
  Tag_evaluateSelectorAsync := Tag_evaluateSelectorAsync Sample.host;
  VersionPolicy_evaluateSelectorAsync := VersionPolicy_evaluateSelectorAsync Sample.host;
  Selection_expandAllDependencies := Selection_expandAllDependencies Sample.host;
  Selection_expandAllConsumers := Selection_expandAllConsumers Sample.host;
  Selection_intersection := Selection_intersection Sample.host;
  Selection_union := Selection_union Sample.host
|}.

End SampleNull.

(** ** cli/actions/AddAction.ts: [rush add]

    [runAsync] turns the command line into the options it hands to
    [PackageJsonUpdater.doRushAdd].  The package-name parser of the
    configuration, [DependencySpecifier] and [semver] are collaborators. *)
Module AddAction.

(** [PackageJsonUpdater.SemVerStyle], the members [runAsync] uses. *)
Inductive SemVerStyle : Type := Exact | Caret | Tilde | Passthrough.

(** The values of the command-line parameters of [onDefineParameters]. *)
Record Parameters : Type := {
  _allFlag : bool;
  _exactFlag : bool;
  _caretFlag : bool;
  _devDependencyFlag : bool;
  _makeConsistentFlag : bool;
  _skipUpdateFlag : bool;
  _packageNameList : list string
}.

(** [c] occurs in [s]. *)
Fixpoint contains (c : Ascii.ascii) (s : string) : bool :=
  match s with
  | EmptyString => false
  | String x rest => Ascii.eqb x c || contains c rest
  end.

(** [s.split(separator)] for a one-character separator.  The array is never
    empty: it is given as its first element and the elements after it. *)
Fixpoint split (separator : Ascii.ascii) (s : string) : string * list string :=
  match s with
  | EmptyString => (EmptyString, [])
  | String c rest =>
      let '(first, others) := split separator rest in
      if Ascii.eqb c separator then (EmptyString, first :: others)
      else (String c first, others)
  end.

Definition atSign : Ascii.ascii := Ascii.ascii_of_nat 64.

(** ['@' + part], where an absent part prints as [undefined]. *)
Definition atPlus (part : option string) : string :=
  "@" ++ default "undefined" part.

(** The block "Name & Version" of the loop: the package name and the version
    of one [--package] value. *)
Definition nameAndVersion (specifiedPackageName : string) : string * option string :=
  let '(part0, others) := split atSign specifiedPackageName in
  if String.eqb part0 EmptyString then
    (* this is a scoped package *)
    (atPlus (others !! 0), others !! 1)
  else
    (part0, others !! 0).

(** [version && version !== 'latest'] *)
Definition givenVersion (version : option string) : bool :=
  match version with
  | Some v => negb (String.eqb v EmptyString) && negb (String.eqb v "latest")
  | None => false
  end.

(** What the loop has collected so far. *)
Record Collected : Type := {
  packageNames : list string;
  initialVersions : gmap string (option string);
  rangeStyles : gmap string SemVerStyle
}.

(** [IPackageJsonUpdaterRushAddOptions], the argument of [doRushAdd]. *)
Record RushAddOptions (Project : Type) : Type := {
  projects : list Project;
  addedPackageNames : list string;
  addedInitialVersions : gmap string (option string);
  devDependency : bool;
  updateOtherPackages : bool;
  skipUpdate : bool;
  debugInstall : bool;
  addedRangeStyles : gmap string SemVerStyle
}.
Arguments projects {Project} _.
Arguments addedPackageNames {Project} _.
Arguments addedInitialVersions {Project} _.
Arguments devDependency {Project} _.
Arguments updateOtherPackages {Project} _.
Arguments skipUpdate {Project} _.
Arguments debugInstall {Project} _.
Arguments addedRangeStyles {Project} _.

Definition Error (message : string) : JsError := OtherError "Error" message.

Definition noProjectMessage : string :=
  "The " ++ dquote ++ "rush add" ++ dquote
  ++ " command must be invoked under a project folder that is registered in rush.json"
  ++ " unless the --all is used.".

Definition bothFlagsMessage : string :=
  "Only one of " ++ dquote ++ "--caret" ++ dquote ++ " and " ++ dquote ++ "--exact" ++ dquote
  ++ " should be specified".

Definition invalidNameMessage (packageName : string) : string :=
  "The package name " ++ dquote ++ packageName ++ dquote ++ " is not valid.".

Definition invalidSpecifierMessage (version : string) : string :=
  "The SemVer specifier " ++ dquote ++ version ++ dquote ++ " is not valid.".

Definition flagsWithVersionMessage (version : string) : string :=
  "The " ++ dquote ++ "--caret" ++ dquote ++ " and " ++ dquote ++ "--exact" ++ dquote
  ++ " flags may not be specified if a version is provided in the --package specifier."
  ++ " In this case " ++ dquote ++ version ++ dquote ++ " was provided.".

Section RunAsync.
Context {Project : Type}.

(** [rushConfiguration.packageNameParser.isValidName] *)
Variable isValidName : string -> bool.
(** [new DependencySpecifier(packageName, version).versionSpecifier]; the
    constructor parses its arguments and may throw. *)
Variable versionSpecifier : string -> string -> Outcome string.
(** Whether [semver.validRange] and [semver.valid] return a value. *)
Variable semver_validRange : string -> bool.
Variable semver_valid : string -> bool.

Variable parameters : Parameters.

(** The range style of a package without a given version. *)
Definition flagStyle : SemVerStyle :=
  if _caretFlag parameters then Caret
  else if _exactFlag parameters then Exact
  else Tilde.

(** The check of a given version. *)
Definition checkVersion (packageName : string) (version : option string) : Outcome unit :=
  if givenVersion version then
    specifier ← versionSpecifier packageName (default EmptyString version);
    if negb (semver_validRange specifier) && negb (semver_valid specifier) then
      Throws (Error (invalidSpecifierMessage (default EmptyString version)))
    else Returns tt
  else Returns tt.

(** One round of the loop over the [--package] values. *)
Definition addPackage (collected : Collected) (specifiedPackageName : string)
    : Outcome Collected :=
  let '(packageName, version) := nameAndVersion specifiedPackageName in
  if negb (isValidName packageName) then
    Throws (Error (invalidNameMessage packageName))
  else
    _ ← checkVersion packageName version;
    let names := (packageNames collected ++ [packageName])%list in
    let versions := <[packageName := version]> (initialVersions collected) in
    if givenVersion version then
      if _exactFlag parameters || _caretFlag parameters then
        Throws (Error (flagsWithVersionMessage (default EmptyString version)))
      else
        Returns {| packageNames := names;
                   initialVersions := versions;
                   rangeStyles := <[packageName := Passthrough]> (rangeStyles collected) |}
    else
      Returns {| packageNames := names;
                 initialVersions := versions;
                 rangeStyles := <[packageName := flagStyle]> (rangeStyles collected) |}.

Fixpoint addPackages (collected : Collected) (specified : list string) : Outcome Collected :=
  match specified with
  | [] => Returns collected
  | specifiedPackageName :: rest =>
      collected' ← addPackage collected specifiedPackageName;
      addPackages collected' rest
  end.

(** [runAsync], up to the call of [doRushAdd]: the options of that call, or
    the error thrown before it.  [allProjects] is [rushConfiguration.projects],
    [currentProject] what [tryGetProjectForPath(process.cwd())] finds and
    [isDebug] is [parser.isDebug]. *)
Definition runAsync (allProjects : list Project) (currentProject : option Project)
    (isDebug : bool) : Outcome (RushAddOptions Project) :=
  selected ← (if _allFlag parameters then Returns allProjects
              else match currentProject with
                   | None => Throws (Error noProjectMessage)
                   | Some project => Returns [project]
                   end);
  if _caretFlag parameters && _exactFlag parameters then
    Throws (Error bothFlagsMessage)
  else
    collected ← addPackages {| packageNames := []; initialVersions := ∅; rangeStyles := ∅ |}
                  (_packageNameList parameters);
    Returns {| projects := selected;
               addedPackageNames := packageNames collected;
               addedInitialVersions := initialVersions collected;
               devDependency := _devDependencyFlag parameters;
               updateOtherPackages := _makeConsistentFlag parameters;
               skipUpdate := _skipUpdateFlag parameters;
               debugInstall := isDebug;
               addedRangeStyles := rangeStyles collected |}.

(** The style [runAsync] records for a package of the given version. *)
Definition styleFor (version : option string) : SemVerStyle :=
  if givenVersion version then Passthrough else flagStyle.

(** A [--package] value that passes every check of the loop. *)
Definition accepts (specifiedPackageName : string) : Prop :=
  isValidName (nameAndVersion specifiedPackageName).1 = true /\
  checkVersion (nameAndVersion specifiedPackageName).1 (nameAndVersion specifiedPackageName).2
  = Returns tt /\
  (givenVersion (nameAndVersion specifiedPackageName).2 = true ->
   _exactFlag parameters || _caretFlag parameters = false).

(** [Map.set] of each pair in turn. *)
Definition setAll {V} (entries : list (string * V)) (m : gmap string V) : gmap string V :=
  foldl (fun acc entry => <[entry.1 := entry.2]> acc) m entries.

End RunAsync.

(** A sample command line: [rush add -p lodash@^4.17.0 -p @types/node -p react@latest]. *)
Definition sampleParameters : Parameters := {|
  _allFlag := false; _exactFlag := false; _caretFlag := false;
  _devDependencyFlag := true; _makeConsistentFlag := false; _skipUpdateFlag := false;
  _packageNameList := ["lodash@^4.17.0"; "@types/node"; "react@latest"]
|}.

Definition sampleRun : Outcome (RushAddOptions string) :=
  runAsync (fun name => negb (String.eqb name EmptyString))
    (fun _ version => Returns version)
    (fun _ => true) (fun _ => false) sampleParameters ["web"; "api"] (Some "web") false.

End AddAction.

(** ** module-minifier-plugin/src/LocalMinifier.ts

    [minify] answers from its cache or starts [minifySingleFile]; the
    handlers it attaches run when that promise settles.  The two halves are
    modelled apart, so that other calls may come in between. *)
Module LocalMinifier.

(** [IModuleMinificationResult], with the fields of the literal in [minify]. *)
Record IModuleMinificationResult : Type := {
  error : option JsError;
  code : option string;
  map : option JsValue;
  hash : string
}.

Section Minify.
(** [IModuleMinificationRequest] and its [hash]. *)
Context {Request : Type}.
Variable requestHash : Request -> string.
(** The callback of the caller: [None] when it returns, [Some e] when it
    throws [e]. *)
Variable callback : IModuleMinificationResult -> option JsError.

(** What one half of [minify] does: the cache afterwards, the arguments the
    callback was called with, whether [minifySingleFile] was started, and the
    error that escapes (to the caller of [minify], or as the rejection of a
    promise nobody holds). *)
Record Effect : Type := {
  _resultCache : gmap string IModuleMinificationResult;
  called : list IModuleMinificationResult;
  started : bool;
  escaped : option JsError
}.

(** The call [minify(request, callback)] itself. *)
Definition minify (cache : gmap string IModuleMinificationResult) (request : Request)
    : Effect :=
  match cache !! requestHash request with
  | Some cached =>
      {| _resultCache := cache; called := [cached]; started := false;
         escaped := callback cached |}
  | None =>
      {| _resultCache := cache; called := []; started := true; escaped := None |}
  end.

(** The result the [catch] handler builds. *)
Definition failure (e : JsError) (request : Request) : IModuleMinificationResult :=
  {| error := Some e; code := None; map := None; hash := requestHash request |}.

(** The handlers, when the promise of [minifySingleFile] is fulfilled
    ([inr]) or rejected ([inl]).  An error thrown by the callback inside
    [then] is caught by the [catch] that follows it. *)
Definition settled (cache : gmap string IModuleMinificationResult) (request : Request)
    (outcome : JsError + IModuleMinificationResult) : Effect :=
  match outcome with
  | inr result =>
      let cache' := <[requestHash request := result]> cache in
      match callback result with
      | None =>
          {| _resultCache := cache'; called := [result]; started := false; escaped := None |}
      | Some e =>
          {| _resultCache := cache'; called := [result; failure e request]; started := false;
             escaped := callback (failure e request) |}
      end
  | inl e =>
      {| _resultCache := cache; called := [failure e request]; started := false;
         escaped := callback (failure e request) |}
  end.

(** What happens to a minifier, in order: calls of [minify] and promises
    that settle. *)
Inductive Event : Type :=
| Call (request : Request)
| Settle (request : Request) (outcome : JsError + IModuleMinificationResult).

Definition step (cache : gmap string IModuleMinificationResult) (event : Event) : Effect :=
  match event with
  | Call request => minify cache request
  | Settle request outcome => settled cache request outcome
  end.

(** The cache after a sequence of events. *)
Definition run (cache : gmap string IModuleMinificationResult) (events : list Event)
    : gmap string IModuleMinificationResult :=
  foldl (fun acc event => _resultCache (step acc event)) cache events.

End Minify.

End LocalMinifier.

(** ** The evaluator on the sample monorepo (section 8 of the design) *)

Example sample_to_closure :
  Sample.select 2 (IFilterJson "to" (ISelectorJson "name" "A")) "cli" = Returns ["A"; "B"; "C"].
Proof. reflexivity. Qed.

Example sample_from_closure :
  Sample.select 2 (IFilterJson "from" (ISelectorJson "name" "C")) "cli" = Returns ["C"; "B"; "A"].
Proof. reflexivity. Qed.

Example sample_disjoint_tags :
  Sample.select 2
    (IOperatorJson "and" [ISelectorJson "tag" "frontend"; ISelectorJson "tag" "backend"]) "cli"
  = Returns [].
Proof. reflexivity. Qed.

Example sample_file_expression :
  Sample.select 3 (IOperatorJson "not" [ISelectorJson "json" "frontend.json"]) "cli"
  = Returns ["C"].
Proof. reflexivity. Qed.

(** ** Recursion budget: deeper budgets only add results *)

Section Budget.
Context {Project : Type} `{EqDecision Project}.
Variable rushConfig : RushConfiguration Project.
Variable host : Collaborators Project.

Lemma approximates_refl {A} (o : Outcome A) : approximates o o.
Proof. by right. Qed.

Lemma approximates_bind {A B} (m m' : Outcome A) (k k' : A -> Outcome B) :
  approximates m m' ->
  (forall a, approximates (k a) (k' a)) ->
  approximates (m ≫= k) (m' ≫= k').
Proof.
  intros [-> | ->] Hk; [by left |].
  destruct m' as [a | e |]; [apply Hk | by right | by left].
Qed.

Lemma approximates_completed {A} (o o' : Outcome A) :
  approximates o o' -> completed o -> o = o'.
Proof. by intros [-> | ->] Hc. Qed.

Lemma evaluateSelectorAsync_refines parser this this' options :
  refines this this' ->
  approximates (evaluateSelectorAsync rushConfig host parser this options)
               (evaluateSelectorAsync rushConfig host parser this' options).
Proof.
  intros Hthis. destruct parser; simpl; try apply approximates_refl.
  unfold JsonFile_evaluateSelectorAsync.
  apply approximates_bind; [apply approximates_refl | intros absolutePath].
  apply approximates_bind; [apply approximates_refl | intros expr].
  destruct (negb (truthy expr)); [apply approximates_refl | apply Hthis].
Qed.

Lemma _evaluateSelector_refines this this' :
  refines this this' ->
  refines (_evaluateSelector rushConfig host this) (_evaluateSelector rushConfig host this').
Proof.
  intros Hthis selector context. unfold _evaluateSelector.
  apply approximates_bind; [apply approximates_refl | intros scope].
  destruct (_scopes_get scope) as [parser |]; [| apply approximates_refl].
  apply approximates_bind; [apply approximates_refl | intros value].
  by apply evaluateSelectorAsync_refines.
Qed.

Lemma _evaluateFilter_refines this this' :
  refines this this' ->
  refines (_evaluateFilter host this) (_evaluateFilter host this').
Proof.
  intros Hthis expr context. unfold _evaluateFilter.
  apply approximates_bind; [apply approximates_refl | intros filter].
  repeat case_match; try apply approximates_refl;
    (apply approximates_bind; [apply approximates_refl | intros exprArg]);
    (apply approximates_bind; [apply Hthis | intros arg; apply approximates_refl]).
Qed.

Lemma _evaluateOperator_refines this this' :
  refines this this' ->
  refines (_evaluateOperator rushConfig host this) (_evaluateOperator rushConfig host this').
Proof.
  intros Hthis expr context. unfold _evaluateOperator.
  apply approximates_bind; [apply approximates_refl | intros op].
  repeat case_match; try apply approximates_refl.
  - apply approximates_bind; [apply approximates_refl | intros arg0].
    apply approximates_bind; [apply Hthis | intros result; apply approximates_refl].
  - apply approximates_bind; [apply approximates_refl | intros arg0].
    apply approximates_bind; [apply Hthis | intros left].
    apply approximates_bind; [apply approximates_refl | intros arg1].
    apply approximates_bind; [apply Hthis | intros right; apply approximates_refl].
  - apply approximates_bind; [apply approximates_refl | intros arg0].
    apply approximates_bind; [apply Hthis | intros left].
    apply approximates_bind; [apply approximates_refl | intros arg1].
    apply approximates_bind; [apply Hthis | intros right; apply approximates_refl].
Qed.

Lemma selectExpression_body_refines this this' :
  refines this this' ->
  refines (selectExpression_body rushConfig host this)
          (selectExpression_body rushConfig host this').
Proof.
  intros Hthis expr context. unfold selectExpression_body.
  apply approximates_bind; [apply approximates_refl | intros [|]].
  { by apply _evaluateSelector_refines. }
  apply approximates_bind; [apply approximates_refl | intros [|]].
  { by apply _evaluateFilter_refines. }
  apply approximates_bind; [apply approximates_refl | intros [|]].
  { by apply _evaluateOperator_refines. }
  apply approximates_refl.
Qed.

Lemma selectExpression_S depth :
  refines (selectExpression rushConfig host depth)
          (selectExpression rushConfig host (S depth)).
Proof.
  induction depth as [| depth IH]; [by left |].
  intros expr context. by apply selectExpression_body_refines.
Qed.

Lemma selectExpression_deeper depth depth' expr context result :
  selectExpression rushConfig host depth expr context = result ->
  completed result ->
  depth <= depth' ->
  selectExpression rushConfig host depth' expr context = result.
Proof.
  intros Hsel Hdone Hle. induction Hle as [| depth' Hle IH]; [done |].
  rewrite <- IH. symmetry. apply approximates_completed.
  - apply selectExpression_S.
  - by rewrite IH.
Qed.

Lemma evaluates_at depth expr context result :
  selectExpression rushConfig host depth expr context = result ->
  completed result ->
  evaluates rushConfig host expr context result.
Proof. intros Hsel Hdone. split; [done | by exists depth]. Qed.

Lemma evaluates_unique expr context result result' :
  evaluates rushConfig host expr context result ->
  evaluates rushConfig host expr context result' ->
  result = result'.
Proof.
  intros [Hdone [d Hd]] [Hdone' [d' Hd']].
  rewrite <- (selectExpression_deeper d (d `max` d') _ _ _ Hd Hdone) by lia.
  by rewrite <- (selectExpression_deeper d' (d `max` d') _ _ _ Hd' Hdone') by lia.
Qed.

Lemma diverges_not_evaluates expr context result :
  diverges rushConfig host expr context ->
  ~ evaluates rushConfig host expr context result.
Proof. intros Hdiv [Hdone [d Hd]]. rewrite Hdiv in Hd. by subst. Qed.

Lemma evaluates_S expr context result :
  evaluates rushConfig host expr context result ->
  exists depth,
    selectExpression_body rushConfig host (selectExpression rushConfig host depth)
      expr context = result.
Proof.
  intros [Hdone [[| d] Hd]]; [by subst |]. by exists d.
Qed.

End Budget.

(** ** Filters *)

Section Filters.
Context {Project : Type} `{EqDecision Project}.
Variable rushConfig : RushConfiguration Project.
Variable host : Collaborators Project.

Local Abbreviation select := (selectExpression rushConfig host).
Local Abbreviation evaluates := (evaluates rushConfig host).

Lemma mapOutcome_completed {A B} (f : A -> B) (o : Outcome A) :
  completed (mapOutcome f o) <-> completed o.
Proof. by destruct o. Qed.

(** A node whose activation is a pure post-processing of one nested call. *)
Lemma evaluates_mapOutcome node X context (f : list Project -> list Project) :
  (forall depth, select (S depth) node context = mapOutcome f (select depth X context)) ->
  forall result,
    evaluates node context result <->
    exists inner, evaluates X context inner /\ result = mapOutcome f inner.
Proof.
  intros Hstep result. split.
  - intros [Hdone [[| d] Hd]]; [by subst |].
    rewrite Hstep in Hd. exists (select d X context). split; [| done].
    apply (evaluates_at _ _ d); [done |].
    apply (mapOutcome_completed f). by rewrite Hd.
  - intros (inner & [Hdone [d Hd]] & ->). apply (evaluates_at _ _ (S d)).
    + by rewrite Hstep, Hd.
    + by apply mapOutcome_completed.
Qed.

Lemma select_to depth X context :
  select (S depth) (IFilterJson "to" X) context
  = mapOutcome (Selection_expandAllDependencies host) (select depth X context).
Proof. reflexivity. Qed.

Lemma select_from depth X context :
  select (S depth) (IFilterJson "from" X) context
  = mapOutcome (fun arg => Selection_expandAllDependencies host
                             (Selection_expandAllConsumers host arg))
      (select depth X context).
Proof. reflexivity. Qed.

Lemma select_only depth X context :
  select (S depth) (IFilterJson "only" X) context = select depth X context.
Proof.
  change (select (S depth) (IFilterJson "only" X) context)
    with (mapOutcome (fun arg => arg) (select depth X context)).
  by destruct (select depth X context).
Qed.

(** C3. The filter [to] evaluates its argument and returns
    [expandAllDependencies] of the result; the filter [from] evaluates its
    argument and returns [expandAllDependencies] of [expandAllConsumers] of
    the result.  An argument that throws makes the filter throw the same
    error, and the filter completes only when its argument does. *)
Theorem to_and_from_filters X context :
  (forall result,
      evaluates (IFilterJson "to" X) context result <->
      exists inner,
        evaluates X context inner /\
        result = mapOutcome (Selection_expandAllDependencies host) inner) /\
  (forall result,
      evaluates (IFilterJson "from" X) context result <->
      exists inner,
        evaluates X context inner /\
        result = mapOutcome (fun arg => Selection_expandAllDependencies host
                                          (Selection_expandAllConsumers host arg)) inner).
Proof.
  split; apply evaluates_mapOutcome; intros depth;
    [apply select_to | apply select_from].
Qed.

(** C7. The filter [only] is the identity: at every recursion budget the
    node [{filter:"only", arg:X}] gives what [X] gives one level below, so
    it completes exactly when [X] does and with the same outcome (the same
    projects in the same order, or the same error). *)
Theorem only_filter_is_identity X context :
  (forall depth,
      select (S depth) (IFilterJson "only" X) context = select depth X context) /\
  (forall result,
      evaluates (IFilterJson "only" X) context result <-> evaluates X context result).
Proof.
  split; [intros depth; apply select_only |].
  intros result. split.
  - intros [Hdone [[| d] Hd]]; [by subst |].
    rewrite select_only in Hd. by apply (evaluates_at _ _ d).
  - intros [Hdone [d Hd]]. apply (evaluates_at _ _ (S d)); [| done].
    by rewrite select_only.
Qed.

End Filters.

(** ** Operators *)

Section Operators.
Context {Project : Type} `{EqDecision Project}.
Variable rushConfig : RushConfiguration Project.
Variable host : Collaborators Project.

Local Abbreviation select := (selectExpression rushConfig host).
Local Abbreviation evaluates := (evaluates rushConfig host).

Lemma select_not depth X context :
  select (S depth) (IOperatorJson "not" [X]) context
  = mapOutcome (complement rushConfig) (select depth X context).
Proof. reflexivity. Qed.

Lemma complement_involutive result :
  result ⊆ projects rushConfig ->
  sameSet (complement rushConfig (complement rushConfig result)) result.
Proof.
  intros Hsub p. unfold complement.
  rewrite !list_elem_of_filter. split.
  - intros [Hnot Hp]. destruct (decide (p ∈ result)) as [| Hout]; [done |].
    exfalso. by apply Hnot.
  - intros Hp. split; [tauto | by apply Hsub].
Qed.

Lemma select_binary depth op L R context
    (combine : list Project -> list Project -> list Project) :
  (op = "and" /\ combine = (fun l r => Selection_intersection host (new_Set l) (new_Set r))) \/
  (op = "or" /\ combine = (fun l r => Selection_union host (new_Set l) (new_Set r))) ->
  select (S depth) (IOperatorJson op [L; R]) context
  = (left ← select depth L context;
     right ← select depth R context;
     mret (combine left right)).
Proof. by intros [[-> ->] | [-> ->]]. Qed.

Lemma evaluatesBothInOrder_intro node L R context combine :
  (forall depth,
      select (S depth) node context
      = (left ← select depth L context;
         right ← select depth R context;
         mret (combine left right))) ->
  evaluatesBothInOrder rushConfig host node L R context combine.
Proof.
  intros Hstep result. split.
  - intros [Hdone [[| d] Hd]]; [by subst |].
    rewrite Hstep in Hd. exists (select d L context).
    destruct (select d L context) as [l | e |] eqn:HL; simpl in Hd.
    + split; [by apply (evaluates_at _ _ d) |].
      exists (select d R context). split; [| done].
      apply (evaluates_at _ _ d); [done |].
      intros HR. rewrite HR in Hd. by subst.
    + split; [by apply (evaluates_at _ _ d) | done].
    + by subst.
  - intros (left & [HdoneL [dl HL]] & Hleft).
    destruct left as [l | e |]; [| | done].
    + destruct Hleft as (right & [HdoneR [dr HR]] & ->).
      apply (evaluates_at _ _ (S (dl `max` dr))).
      * rewrite Hstep.
        rewrite (selectExpression_deeper _ _ dl (dl `max` dr) _ _ _ HL HdoneL) by lia.
        by rewrite (selectExpression_deeper _ _ dr (dl `max` dr) _ _ _ HR HdoneR) by lia.
      * by destruct right.
    + subst result. apply (evaluates_at _ _ (S dl)); [| done].
      by rewrite Hstep, HL.
Qed.

(** *** Results stay inside the monorepo *)

Lemma new_Set_elements (l : list Project) x : x ∈ new_Set l <-> x ∈ l.
Proof.
  unfold new_Set.
  assert (Hgen : forall acc : list Project,
             x ∈ foldl (fun acc y => if decide (y ∈ acc) then acc else (acc ++ [y])%list) acc l
             <-> x ∈ acc \/ x ∈ l).
  { induction l as [| y l IH]; intros acc; simpl.
    - rewrite elem_of_nil. tauto.
    - rewrite IH, elem_of_cons. destruct (decide (y ∈ acc)) as [Hin | Hout].
      + split; [tauto |]. intros [? | [-> | ?]]; tauto.
      + rewrite elem_of_app, list_elem_of_singleton. tauto. }
  rewrite Hgen, elem_of_nil. tauto.
Qed.

Lemma withinMonorepo_bind {A} (m : Outcome A) (k : A -> Outcome (list Project)) :
  (forall a, m = Returns a -> withinMonorepo rushConfig (k a)) ->
  withinMonorepo rushConfig (m ≫= k).
Proof. destruct m as [a | e |]; [by intros Hk; apply Hk | done | done]. Qed.

Lemma withinMonorepo_ret (l : list Project) :
  l ⊆ projects rushConfig -> withinMonorepo rushConfig (Returns l).
Proof. intros Hl l' Heq. by simplify_eq. Qed.

Lemma withinMonorepo_throw e : withinMonorepo rushConfig (Throws e).
Proof. done. Qed.

Lemma selectExpression_body_within this :
  selectsFromMonorepo rushConfig host ->
  (forall expr context, withinMonorepo rushConfig (this expr context)) ->
  forall expr context,
    withinMonorepo rushConfig (selectExpression_body rushConfig host this expr context).
Proof.
  intros (Hname & Hgit & Htag & Hpolicy & Hdeps & Hcons & Hinter & Hunion) Hthis expr context.
  assert (Hset : forall l, l ⊆ projects rushConfig -> new_Set l ⊆ projects rushConfig).
  { intros l Hl p Hp. apply Hl. by apply new_Set_elements. }
  unfold selectExpression_body.
  apply withinMonorepo_bind; intros [|] _.
  { unfold _evaluateSelector. apply withinMonorepo_bind; intros scope _.
    destruct (_scopes_get scope) as [parser |];
      apply withinMonorepo_bind; intros value _; [| apply withinMonorepo_throw].
    destruct parser; simpl; auto.
    unfold JsonFile_evaluateSelectorAsync.
    apply withinMonorepo_bind; intros absolutePath _.
    apply withinMonorepo_bind; intros loaded _.
    destruct (negb (truthy loaded)); [apply withinMonorepo_throw | apply Hthis]. }
  apply withinMonorepo_bind; intros [|] _.
  { unfold _evaluateFilter. apply withinMonorepo_bind; intros filter _.
    repeat case_match; try apply withinMonorepo_throw;
      (apply withinMonorepo_bind; intros exprArg _);
      (apply withinMonorepo_bind; intros arg Harg; apply Hthis in Harg);
      apply withinMonorepo_ret; auto. }
  apply withinMonorepo_bind; intros [|] _; [| apply withinMonorepo_throw].
  unfold _evaluateOperator. apply withinMonorepo_bind; intros op _.
  repeat case_match; try apply withinMonorepo_throw.
  - apply withinMonorepo_bind; intros arg0 _.
    apply withinMonorepo_bind; intros result _.
    apply withinMonorepo_ret. intros p Hp. by apply list_elem_of_filter in Hp as [_ Hp].
  - apply withinMonorepo_bind; intros arg0 _.
    apply withinMonorepo_bind; intros left Hleft; apply Hthis in Hleft.
    apply withinMonorepo_bind; intros arg1 _.
    apply withinMonorepo_bind; intros right Hright; apply Hthis in Hright.
    apply withinMonorepo_ret; auto.
  - apply withinMonorepo_bind; intros arg0 _.
    apply withinMonorepo_bind; intros left Hleft; apply Hthis in Hleft.
    apply withinMonorepo_bind; intros arg1 _.
    apply withinMonorepo_bind; intros right Hright; apply Hthis in Hright.
    apply withinMonorepo_ret; auto.
Qed.

(** With collaborators that select from the monorepo, whatever
    [selectExpression] returns is a list of projects of the monorepo. *)
Lemma selectExpression_within depth expr context :
  selectsFromMonorepo rushConfig host ->
  withinMonorepo rushConfig (select depth expr context).
Proof.
  intros Hhost. revert expr context.
  induction depth as [| depth IH]; intros expr context; [done |].
  by apply selectExpression_body_within.
Qed.

(** C8. Negating twice gives back the set: when [X] evaluates to a list of
    projects of the monorepo, [{op:"not", args:[{op:"not", args:[X]}]}]
    evaluates to a list with the same elements. *)
Theorem not_not_restores_set X context result :
  evaluates X context (Returns result) ->
  result ⊆ projects rushConfig ->
  exists result',
    evaluates (IOperatorJson "not" [IOperatorJson "not" [X]]) context (Returns result') /\
    sameSet result' result.
Proof.
  intros [_ [d Hd]] Hsub. exists (complement rushConfig (complement rushConfig result)).
  split; [| by apply complement_involutive].
  apply (evaluates_at _ _ (S (S d))); [| done].
  by rewrite !select_not, Hd.
Qed.

(** C5. The operators [and] and [or] evaluate both operands, the left one
    first and the right one whatever the left one returned.  In particular
    an error of the left operand is the error of the node; and when the left
    operand returns (be it the empty list) and the right operand throws, the
    node throws that error instead of returning a set. *)
Theorem and_or_evaluate_both_operands L R context :
  evaluatesBothInOrder rushConfig host (IOperatorJson "and" [L; R]) L R context
    (fun l r => Selection_intersection host (new_Set l) (new_Set r)) /\
  evaluatesBothInOrder rushConfig host (IOperatorJson "or" [L; R]) L R context
    (fun l r => Selection_union host (new_Set l) (new_Set r)) /\
  (forall op e,
      op = "and" \/ op = "or" ->
      evaluates L context (Throws e) ->
      evaluates (IOperatorJson op [L; R]) context (Throws e)) /\
  (forall op l e,
      op = "and" \/ op = "or" ->
      evaluates L context (Returns l) ->
      evaluates R context (Throws e) ->
      evaluates (IOperatorJson op [L; R]) context (Throws e)).
Proof.
  assert (Hand : evaluatesBothInOrder rushConfig host (IOperatorJson "and" [L; R]) L R context
                   (fun l r => Selection_intersection host (new_Set l) (new_Set r))).
  { apply evaluatesBothInOrder_intro. intros d. apply select_binary. by left. }
  assert (Hor : evaluatesBothInOrder rushConfig host (IOperatorJson "or" [L; R]) L R context
                  (fun l r => Selection_union host (new_Set l) (new_Set r))).
  { apply evaluatesBothInOrder_intro. intros d. apply select_binary. by right. }
  split; [exact Hand |]. split; [exact Hor |]. split.
  - intros op e [-> | ->] HL; [apply Hand | apply Hor]; by exists (Throws e).
  - intros op l e [-> | ->] HL HR; [apply Hand | apply Hor];
      (exists (Returns l); split; [done |]; by exists (Throws e)).
Qed.

End Operators.

(** ** Classification of nodes and selectors *)

Section Selectors.
Context {Project : Type} `{EqDecision Project}.
Variable rushConfig : RushConfiguration Project.
Variable host : Collaborators Project.

Local Abbreviation select := (selectExpression rushConfig host).
Local Abbreviation evaluates := (evaluates rushConfig host).

Lemma append_assoc (a b c : string) : (a ++ b) ++ c = a ++ b ++ c.
Proof.
  induction a as [| x a IH]; [done |].
  change (String x ((a ++ b) ++ c) = String x (a ++ b ++ c)). by rewrite IH.
Qed.

Lemma occursIn_here needle before after :
  occursIn needle (before ++ needle ++ after).
Proof. by exists before, after. Qed.

Lemma occursIn_later needle before text :
  occursIn needle text -> occursIn needle (before ++ text).
Proof.
  intros (b & a & ->). exists (before ++ b), a. by rewrite append_assoc.
Qed.

(** The registry holds exactly the five built-in scopes. *)
Lemma registry_exact (scope : string) :
  is_Some (_scopes !! scope) <-> scope ∈ registeredScopes.
Proof.
  unfold _scopes, registeredScopes.
  rewrite !lookup_insert, lookup_empty, !elem_of_cons, elem_of_nil.
  repeat case_decide; subst; (split; [intros [parser Hin] | intros Hin]);
    first [ by eexists | by auto 10 | done | intuition congruence ].
Qed.

Lemma registry_unknown (scope : string) :
  scope ∉ registeredScopes -> _scopes !! scope = None.
Proof.
  intros Hout. apply eq_None_not_Some. by rewrite registry_exact.
Qed.

(** The dispatch of [selectExpression] on an object, property by property. *)
Lemma select_object depth properties context :
  select (S depth) (JsObject properties) context
  = if truthy (property properties "scope") then
      _evaluateSelector rushConfig host (select depth) (JsObject properties) context
    else if truthy (property properties "filter") then
      _evaluateFilter host (select depth) (JsObject properties) context
    else if truthy (property properties "op") then
      _evaluateOperator rushConfig host (select depth) (JsObject properties) context
    else Throws (SelectorError (invalidObjectMessage context)).
Proof.
  simpl. unfold selectExpression_body. simpl. fold (property properties "scope").
  destruct (truthy (property properties "scope")); [done |].
  simpl. fold (property properties "filter").
  destruct (truthy (property properties "filter")); [done |].
  simpl. fold (property properties "op").
  by destruct (truthy (property properties "op")).
Qed.

(** C2, as the code has it.  A node that is none of the three shapes and is
    not [null] or [undefined] makes [selectExpression] throw a [SelectorError]
    whose message contains the context: the invalid-object error, or for an
    array, which inherits a [filter] method, the unknown-filter error.  For
    [null] and [undefined] the first property read throws the [TypeError] of
    the runtime, which has no context.  In no case is a list returned. *)
Theorem invalid_object_error expr context :
  matchesNoVariant expr ->
  match expr with
  | JsUndefined | JsNull =>
      forall depth, select (S depth) expr context = Throws TypeError
  | JsArray _ =>
      forall depth,
        select (S depth) expr context
        = Throws (SelectorError (unknownFilterMessage (JsNative "filter") context))
  | _ =>
      forall depth,
        select (S depth) expr context
        = Throws (SelectorError (invalidObjectMessage context))
  end /\
  (expr <> JsUndefined ->
   expr <> JsNull ->
   exists message,
     (forall depth, select (S depth) expr context = Throws (SelectorError message)) /\
     evaluates expr context (Throws (SelectorError message)) /\
     occursIn context message) /\
  (forall set, ~ evaluates expr context (Returns set)).
Proof.
  intros Hnone.
  assert (Hinvalid : occursIn context (invalidObjectMessage context)).
  { unfold invalidObjectMessage. apply occursIn_here. }
  assert (Hfilter : occursIn context (unknownFilterMessage (JsNative "filter") context)).
  { unfold unknownFilterMessage. repeat (apply occursIn_here || apply occursIn_later). }
  assert (Hthrows : exists error, forall depth, select (S depth) expr context = Throws error).
  { destruct expr as [| | b | n | s | elements | properties | name];
      try (by eexists; intros depth; reflexivity).
    destruct Hnone as (Hscope & Hfil & Hop). eexists. intros depth.
    by rewrite select_object, Hscope, Hfil, Hop. }
  split; [| split].
  - destruct expr as [| | b | n | s | elements | properties | name]; try done.
    destruct Hnone as (Hscope & Hfil & Hop). intros depth.
    by rewrite select_object, Hscope, Hfil, Hop.
  - intros Hundefined Hnull.
    destruct expr as [| | b | n | s | elements | properties | name]; try done;
      try (exists (invalidObjectMessage context);
           split; [done |]; split; [by apply (evaluates_at _ _ 1) | done]).
    + exists (unknownFilterMessage (JsNative "filter") context).
      split; [done |]. split; [by apply (evaluates_at _ _ 1) | done].
    + destruct Hnone as (Hscope & Hfil & Hop).
      assert (Hstep : forall depth,
                 select (S depth) (JsObject properties) context
                 = Throws (SelectorError (invalidObjectMessage context))).
      { intros depth. by rewrite select_object, Hscope, Hfil, Hop. }
      exists (invalidObjectMessage context).
      split; [done |]. split; [by apply (evaluates_at _ _ 1) | done].
  - destruct Hthrows as [error Herror]. intros set Hset.
    assert (Heval : evaluates expr context (Throws error)).
    { by apply (evaluates_at _ _ 1). }
    by pose proof (evaluates_unique _ _ _ _ _ _ Heval Hset).
Qed.

(** C6. A selector whose scope is a non-empty string other than the five
    registered names makes [selectExpression] throw a [SelectorError] whose
    message contains the scope, the value and the context. *)
Theorem unknown_scope_error scope value context :
  scope <> EmptyString ->
  scope ∉ registeredScopes ->
  exists message,
    (forall depth,
        select (S depth) (ISelectorJson scope value) context
        = Throws (SelectorError message)) /\
    evaluates (ISelectorJson scope value) context (Throws (SelectorError message)) /\
    occursIn scope message /\ occursIn value message /\ occursIn context message.
Proof.
  intros Hne Hout.
  exists (unknownScopeMessage (JsString scope) (JsString value) context).
  assert (Hstep : forall depth,
             select (S depth) (ISelectorJson scope value) context
             = Throws (SelectorError
                         (unknownScopeMessage (JsString scope) (JsString value) context))).
  { intros depth. unfold ISelectorJson. rewrite select_object.
    unfold property. simpl.
    apply String.eqb_neq in Hne. rewrite Hne. simpl.
    unfold _evaluateSelector. simpl. by rewrite (registry_unknown _ Hout). }
  split; [done |]. split; [by apply (evaluates_at _ _ 1) |].
  unfold unknownScopeMessage. simpl toString.
  split; [apply occursIn_here |].
  split; repeat (apply occursIn_here || apply occursIn_later).
Qed.

(** C10, as the code has it.  [selectExpression] tests the truthiness of
    [scope], then of [filter], then of [op].  A node whose [scope] is the
    empty string is therefore not a selector: it is an invalid object when
    [filter] and [op] are absent or falsy too, and a filter when [filter] is
    truthy.  A node with a truthy [scope] is evaluated as a selector, from its
    [scope] and [value] alone. *)
Theorem classification_by_truthiness properties context :
  (forall depth,
      select (S depth) (JsObject properties) context
      = if truthy (property properties "scope") then
          _evaluateSelector rushConfig host (select depth) (JsObject properties) context
        else if truthy (property properties "filter") then
          _evaluateFilter host (select depth) (JsObject properties) context
        else if truthy (property properties "op") then
          _evaluateOperator rushConfig host (select depth) (JsObject properties) context
        else Throws (SelectorError (invalidObjectMessage context))) /\
  (property properties "scope" = JsString EmptyString ->
   truthy (property properties "filter") = false ->
   truthy (property properties "op") = false ->
   forall depth,
     select (S depth) (JsObject properties) context
     = Throws (SelectorError (invalidObjectMessage context))) /\
  (property properties "scope" = JsString EmptyString ->
   truthy (property properties "filter") = true ->
   forall depth,
     select (S depth) (JsObject properties) context
     = _evaluateFilter host (select depth) (JsObject properties) context) /\
  (truthy (property properties "scope") = true ->
   forall depth,
     select (S depth) (JsObject properties) context
     = _evaluateSelector rushConfig host (select depth)
         (JsObject [("scope", property properties "scope");
                    ("value", property properties "value")]) context).
Proof.
  split; [intros depth; apply select_object |].
  split; [| split].
  - intros Hscope Hfilter Hop depth.
    by rewrite select_object, Hscope, Hfilter, Hop.
  - intros Hscope Hfilter depth.
    by rewrite select_object, Hscope, Hfilter.
  - intros Hscope depth. by rewrite select_object, Hscope.
Qed.

(** ** The JSON-file scope *)

Lemma registry_json : _scopes !! "json" = Some JsonFileSelectorParser.
Proof. reflexivity. Qed.

Lemma select_json depth value context :
  select (S depth) (ISelectorJson "json" value) context
  = JsonFile_evaluateSelectorAsync rushConfig host (select depth)
      {| unscopedSelector := JsString value; terminal := JsUndefined; context := context |}.
Proof.
  unfold ISelectorJson. rewrite select_object. unfold property. simpl.
  unfold _evaluateSelector. simpl. by rewrite registry_json.
Qed.

Lemma startsWith_dot file :
  startsWith file "." = true <-> exists rest, file = "." ++ rest.
Proof.
  unfold startsWith. split.
  - destruct file as [| c rest]; [done |].
    change (String.prefix "." (String c rest))
      with (if Ascii.ascii_dec (Ascii.ascii_of_nat 46) c
            then String.prefix EmptyString rest else false).
    destruct (Ascii.ascii_dec (Ascii.ascii_of_nat 46) c) as [<- | Hne]; [| done].
    intros _. by exists rest.
  - intros [rest ->].
    change (String.prefix "." ("." ++ rest))
      with (if Ascii.ascii_dec (Ascii.ascii_of_nat 46) (Ascii.ascii_of_nat 46)
            then String.prefix EmptyString rest else false).
    destruct (Ascii.ascii_dec (Ascii.ascii_of_nat 46) (Ascii.ascii_of_nat 46)); [| done].
    by destruct rest.
Qed.

(** C9. [getAbsolutePath] resolves a value that starts with a dot against
    the current working directory and any other value against the folder of
    rush.json. *)
Theorem getAbsolutePath_base file :
  (startsWith file "." = true <-> exists rest, file = "." ++ rest) /\
  (startsWith file "." = true ->
   getAbsolutePath rushConfig host file = path_resolve host (process_cwd host) file) /\
  (startsWith file "." = false ->
   getAbsolutePath rushConfig host file
   = path_resolve host (rushJsonFolder rushConfig) file).
Proof.
  split; [apply startsWith_dot |].
  unfold getAbsolutePath. split; by intros ->.
Qed.

(** C4, as the code has it.  When loading the file of a [json] selector
    throws, [tryLoadAsync] turns a does-not-exist error into [undefined] and
    the parser throws a [SelectorError] naming the absolute path and the
    context; every other load error, a failed schema validation among them,
    is rethrown as it is. *)
Theorem json_file_load_failure value context error :
  JsonFile_loadAndValidateAsync host (getAbsolutePath rushConfig host value) = Throws error ->
  (FileSystem_isNotExistError host error = true ->
   let message := fileNotFoundMessage (getAbsolutePath rushConfig host value) context in
   (forall depth,
       select (S depth) (ISelectorJson "json" value) context
       = Throws (SelectorError message)) /\
   occursIn (getAbsolutePath rushConfig host value) message /\
   occursIn context message) /\
  (FileSystem_isNotExistError host error = false ->
   forall depth,
     select (S depth) (ISelectorJson "json" value) context = Throws error).
Proof.
  intros Hload.
  assert (Hstep : forall depth,
             select (S depth) (ISelectorJson "json" value) context
             = if FileSystem_isNotExistError host error
               then Throws (SelectorError
                              (fileNotFoundMessage (getAbsolutePath rushConfig host value) context))
               else Throws error).
  { intros depth. rewrite select_json.
    unfold JsonFile_evaluateSelectorAsync, tryLoadAsync, loadAsync. simpl.
    rewrite Hload. by destruct (FileSystem_isNotExistError host error). }
  split.
  - intros Hne message. split; [| split].
    + intros depth. by rewrite Hstep, Hne.
    + unfold message, fileNotFoundMessage.
      repeat (apply occursIn_here || apply occursIn_later).
    + unfold message, fileNotFoundMessage.
      repeat (apply occursIn_here || apply occursIn_later).
  - intros Hother depth. by rewrite Hstep, Hother.
Qed.

(** A set of expressions each of which, while the others are unfinished at
    one budget, is unfinished at the next, never completes. *)
Lemma diverges_by_invariant (loops : JsValue -> Prop) :
  (forall depth expr context,
      loops expr ->
      (forall expr' context', loops expr' -> select depth expr' context' = Unfinished) ->
      select (S depth) expr context = Unfinished) ->
  forall expr context, loops expr -> diverges rushConfig host expr context.
Proof.
  intros Hstep expr context Hloops depth. revert expr context Hloops.
  induction depth as [| depth IH]; intros expr context Hloops; [done |].
  by apply Hstep.
Qed.

Lemma reachesCycle_truthy onCycle expr :
  reachesCycle rushConfig host onCycle expr -> truthy expr = true.
Proof. by intros []. Qed.

Lemma select_json_loaded value fileExpr :
  JsonFile_loadAndValidateAsync host (getAbsolutePath rushConfig host value) = Returns fileExpr ->
  truthy fileExpr = true ->
  forall depth context,
    select (S depth) (ISelectorJson "json" value) context
    = select depth fileExpr ("JSON file " ++ value ++ " in " ++ context).
Proof.
  intros Hload Htruthy depth context. rewrite select_json.
  unfold JsonFile_evaluateSelectorAsync, tryLoadAsync, loadAsync. simpl.
  rewrite Hload. simpl. by rewrite Htruthy.
Qed.

Lemma reachesCycle_unfinished onCycle :
  inclusionCycle rushConfig host onCycle ->
  forall depth expr context,
    reachesCycle rushConfig host onCycle expr ->
    select depth expr context = Unfinished.
Proof.
  intros Hcycle. induction depth as [| depth IH]; intros expr context Hreaches; [done |].
  destruct Hreaches as [value Hvalue | filter X Hfilter HX | X HX
                        | op L R Hop HL | op L R Hop HL HR].
  - destruct (Hcycle value Hvalue) as (fileExpr & Hload & Hfile).
    rewrite (select_json_loaded value fileExpr Hload (reachesCycle_truthy _ _ Hfile)).
    by apply IH.
  - rewrite !elem_of_cons, elem_of_nil in Hfilter.
    destruct Hfilter as [-> | [-> | [-> | []]]].
    + by rewrite select_to, (IH X context HX).
    + by rewrite select_from, (IH X context HX).
    + by rewrite select_only, (IH X context HX).
  - by rewrite select_not, (IH X context HX).
  - rewrite !elem_of_cons, elem_of_nil in Hop.
    destruct Hop as [-> | [-> | []]].
    + rewrite (select_binary rushConfig host depth "and" L R context _
                 (or_introl (conj eq_refl eq_refl))).
      by rewrite (IH L context HL).
    + rewrite (select_binary rushConfig host depth "or" L R context _
                 (or_intror (conj eq_refl eq_refl))).
      by rewrite (IH L context HL).
  - assert (Hleft : forall e, select depth L context <> Throws e).
    { intros e He. by apply (HL context e), (evaluates_at _ _ depth). }
    rewrite !elem_of_cons, elem_of_nil in Hop.
    destruct Hop as [-> | [-> | []]].
    + rewrite (select_binary rushConfig host depth "and" L R context _
                 (or_introl (conj eq_refl eq_refl))).
      destruct (select depth L context) as [l | e |]; simpl;
        [by rewrite (IH R context HR) | by destruct (Hleft e) | done].
    + rewrite (select_binary rushConfig host depth "or" L R context _
                 (or_intror (conj eq_refl eq_refl))).
      destruct (select depth L context) as [l | e |]; simpl;
        [by rewrite (IH R context HR) | by destruct (Hleft e) | done].
Qed.

(** C1, as the code has it.  There is no detection of cyclic inclusion.
    When files include one another in a circle, be it one file that names
    itself, and the evaluation of an expression comes to a [json] selector
    for one of them, the evaluation never completes: it returns nothing and
    throws nothing, a cyclic-inclusion [SelectorError] no more than any other
    error.  Each [json] selector for a file of the circle re-enters
    [selectExpression] on the expression of that file, one level deeper and
    with the context grown by the name of the file. *)
Theorem cyclic_inclusion_never_completes (onCycle : string -> Prop) expr context :
  inclusionCycle rushConfig host onCycle ->
  reachesCycle rushConfig host onCycle expr ->
  diverges rushConfig host expr context /\
  (forall result, ~ evaluates expr context result) /\
  (forall message, ~ evaluates expr context (Throws (SelectorError message))) /\
  (forall value,
      onCycle value ->
      exists fileExpr,
        JsonFile_loadAndValidateAsync host (getAbsolutePath rushConfig host value)
        = Returns fileExpr /\
        forall depth context',
          select (S depth) (ISelectorJson "json" value) context'
          = select depth fileExpr ("JSON file " ++ value ++ " in " ++ context')).
Proof.
  intros Hcycle Hreaches.
  assert (Hdiv : diverges rushConfig host expr context).
  { intros depth. by apply (reachesCycle_unfinished onCycle). }
  split; [done |]. split; [| split].
  - intros result. by apply diverges_not_evaluates.
  - intros message. by apply diverges_not_evaluates.
  - intros value Hvalue. destruct (Hcycle value Hvalue) as (fileExpr & Hload & Hfile).
    exists fileExpr. split; [done |].
    apply (select_json_loaded value fileExpr Hload (reachesCycle_truthy _ _ Hfile)).
Qed.

End Selectors.

(** ** The theorems at work on the sample monorepo *)

Lemma to_and_from_filters_witness :
  evaluates Sample.rushConfig Sample.host
    (IFilterJson "to" (ISelectorJson "name" "A")) "cli" (Returns ["A"; "B"; "C"]) /\
  evaluates Sample.rushConfig Sample.host
    (IFilterJson "from" (ISelectorJson "name" "C")) "cli" (Returns ["C"; "B"; "A"]).
Proof.
  split.
  - apply (proj1 (to_and_from_filters Sample.rushConfig Sample.host
                    (ISelectorJson "name" "A") "cli")).
    exists (Returns ["A"]). split; [| reflexivity].
    apply (evaluates_at _ _ 1); [reflexivity | discriminate].
  - apply (proj2 (to_and_from_filters Sample.rushConfig Sample.host
                    (ISelectorJson "name" "C") "cli")).
    exists (Returns ["C"]). split; [| reflexivity].
    apply (evaluates_at _ _ 1); [reflexivity | discriminate].
Defined.

Lemma only_filter_is_identity_witness :
  evaluates Sample.rushConfig Sample.host
    (IFilterJson "only" (ISelectorJson "tag" "frontend")) "cli" (Returns ["A"; "B"]).
Proof.
  apply (proj2 (only_filter_is_identity Sample.rushConfig Sample.host
                  (ISelectorJson "tag" "frontend") "cli")).
  apply (evaluates_at _ _ 1); [reflexivity | discriminate].
Defined.

Lemma not_not_restores_set_witness :
  exists result',
    evaluates Sample.rushConfig Sample.host
      (IOperatorJson "not" [IOperatorJson "not" [ISelectorJson "name" "B"]]) "cli"
      (Returns result') /\
    sameSet result' ["B"].
Proof.
  apply (not_not_restores_set Sample.rushConfig Sample.host
           (ISelectorJson "name" "B") "cli" ["B"]).
  - apply (evaluates_at _ _ 1); [reflexivity | discriminate].
  - intros p Hp. apply list_elem_of_singleton in Hp. subst p.
    simpl. apply list_elem_of_further, list_elem_of_here.
Defined.

Lemma and_or_evaluate_both_operands_witness :
  evaluates Sample.rushConfig Sample.host (ISelectorJson "tag" "none") "cli" (Returns []) /\
  evaluates Sample.rushConfig Sample.host
    (IOperatorJson "and" [ISelectorJson "tag" "none"; ISelectorJson "bogus" "x"]) "cli"
    (Throws (SelectorError "Unknown selector scope 'bogus' for value 'x' in cli.")).
Proof.
  assert (Hleft : evaluates Sample.rushConfig Sample.host
                    (ISelectorJson "tag" "none") "cli" (Returns [])).
  { apply (evaluates_at _ _ 1); [reflexivity | discriminate]. }
  split; [exact Hleft |].
  apply (proj2 (proj2 (proj2 (and_or_evaluate_both_operands Sample.rushConfig Sample.host
                                (ISelectorJson "tag" "none") (ISelectorJson "bogus" "x") "cli")))
           "and" [] _ (or_introl eq_refl) Hleft).
  apply (evaluates_at _ _ 1); [reflexivity | discriminate].
Defined.

Lemma invalid_object_error_witness :
  evaluates Sample.rushConfig Sample.host (JsObject [("value", JsString "A")]) "cli"
    (Throws (SelectorError "Invalid object encountered in selector expression in cli.")) /\
  (forall set,
      ~ evaluates Sample.rushConfig Sample.host (JsObject [("value", JsString "A")]) "cli"
          (Returns set)) /\
  selectExpression Sample.rushConfig Sample.host 1 JsNull "cli" = Throws TypeError.
Proof.
  destruct (invalid_object_error Sample.rushConfig Sample.host
              (JsObject [("value", JsString "A")]) "cli"
              (conj eq_refl (conj eq_refl eq_refl))) as (Hstep & _ & Hnever).
  split; [| split].
  - apply (evaluates_at _ _ 1); [apply (Hstep 0) | discriminate].
  - exact Hnever.
  - apply (proj1 (invalid_object_error Sample.rushConfig Sample.host JsNull "cli" I) 0).
Defined.

Lemma unknown_scope_error_witness :
  exists message,
    selectExpression Sample.rushConfig Sample.host 1 (ISelectorJson "bogus" "x") "cli"
    = Throws (SelectorError message) /\
    occursIn "bogus" message /\ occursIn "x" message /\ occursIn "cli" message.
Proof.
  destruct (unknown_scope_error Sample.rushConfig Sample.host "bogus" "x" "cli")
    as (message & Hstep & _ & Hscope & Hvalue & Hcontext).
  - discriminate.
  - unfold registeredScopes. rewrite !not_elem_of_cons.
    repeat split; try discriminate. apply not_elem_of_nil.
  - exists message. split; [apply Hstep | tauto].
Defined.

Lemma classification_by_truthiness_witness :
  selectExpression Sample.rushConfig Sample.host 1
    (JsObject [("scope", JsString EmptyString); ("value", JsString "A")]) "cli"
  = Throws (SelectorError "Invalid object encountered in selector expression in cli.") /\
  selectExpression Sample.rushConfig Sample.host 1
    (JsObject [("op", JsString "not"); ("filter", JsString "to");
               ("scope", JsString "name"); ("value", JsString "A")]) "cli"
  = Returns ["A"].
Proof.
  split.
  - apply (proj1 (proj2 (classification_by_truthiness Sample.rushConfig Sample.host
                           [("scope", JsString EmptyString); ("value", JsString "A")] "cli"))
             eq_refl eq_refl eq_refl 0).
  - rewrite (proj2 (proj2 (proj2 (classification_by_truthiness Sample.rushConfig Sample.host
                                    [("op", JsString "not"); ("filter", JsString "to");
                                     ("scope", JsString "name"); ("value", JsString "A")] "cli")))
               eq_refl 0).
    reflexivity.
Defined.

Lemma getAbsolutePath_base_witness :
  getAbsolutePath Sample.rushConfig Sample.host "./selection.json"
  = "/repo/apps/web/./selection.json" /\
  getAbsolutePath Sample.rushConfig Sample.host "common/selection.json"
  = "/repo/common/selection.json".
Proof.
  split.
  - rewrite (proj1 (proj2 (getAbsolutePath_base Sample.rushConfig Sample.host
                             "./selection.json")) eq_refl).
    reflexivity.
  - rewrite (proj2 (proj2 (getAbsolutePath_base Sample.rushConfig Sample.host
                             "common/selection.json")) eq_refl).
    reflexivity.
Defined.

Lemma json_file_load_failure_witness :
  selectExpression Sample.rushConfig Sample.host 1 (ISelectorJson "json" "missing.json") "cli"
  = Throws (SelectorError (fileNotFoundMessage "/repo/missing.json" "cli")) /\
  selectExpression Sample.rushConfig Sample.host 1 (ISelectorJson "json" "invalid.json") "cli"
  = Throws (OtherError "Error" "JSON validation failed: /repo/invalid.json").
Proof.
  split.
  - apply (proj1 (json_file_load_failure Sample.rushConfig Sample.host
                    "missing.json" "cli" _ eq_refl) eq_refl).
  - apply (proj2 (json_file_load_failure Sample.rushConfig Sample.host
                    "invalid.json" "cli" _ eq_refl) eq_refl).
Defined.

Lemma sample_name_never_throws :
  neverThrows Sample.rushConfig Sample.host (ISelectorJson "name" "A").
Proof.
  intros context error [_ [[| depth] Hdepth]]; [done |].
  by change (Returns ["A"] = Throws (A := list string) error) in Hdepth.
Qed.

Lemma cyclic_inclusion_never_completes_witness :
  diverges Sample.rushConfig Sample.host (ISelectorJson "json" "cycle.json") "cli" /\
  diverges Sample.rushConfig Sample.host (ISelectorJson "json" "self.json") "cli" /\
  diverges Sample.rushConfig Sample.host
    (IFilterJson "to" (ISelectorJson "json" "ping.json")) "cli".
Proof.
  split; [| split].
  - apply (cyclic_inclusion_never_completes Sample.rushConfig Sample.host
             (fun v => v = "cycle.json") (ISelectorJson "json" "cycle.json") "cli").
    + intros v ->.
      exists (IOperatorJson "or" [ISelectorJson "name" "A"; ISelectorJson "json" "cycle.json"]).
      split; [reflexivity |].
      apply reaches_right.
      * apply list_elem_of_further, list_elem_of_here.
      * apply sample_name_never_throws.
      * by apply reaches_json.
    + by apply reaches_json.
  - apply (cyclic_inclusion_never_completes Sample.rushConfig Sample.host
             (fun v => v = "self.json") (ISelectorJson "json" "self.json") "cli").
    + intros v ->. exists (ISelectorJson "json" "self.json").
      split; [reflexivity | by apply reaches_json].
    + by apply reaches_json.
  - apply (cyclic_inclusion_never_completes Sample.rushConfig Sample.host
             (fun v => v = "ping.json" \/ v = "pong.json")
             (IFilterJson "to" (ISelectorJson "json" "ping.json")) "cli").
    + intros v [-> | ->].
      * exists (ISelectorJson "json" "pong.json").
        split; [reflexivity | apply reaches_json; by right].
      * exists (ISelectorJson "json" "ping.json").
        split; [reflexivity | apply reaches_json; by left].
    + apply reaches_filter; [apply list_elem_of_here | apply reaches_json; by left].
Defined.

(** ** Where the code departs from the design *)

(** A file whose expression is an [or] with a [json] selector for the file
    itself: the evaluation reports no cyclic inclusion, it never completes. *)
Lemma cyclic_inclusion_counterexample :
  JsonFile_loadAndValidateAsync Sample.host
    (getAbsolutePath Sample.rushConfig Sample.host "cycle.json")
  = Returns (IOperatorJson "or" [ISelectorJson "name" "A"; ISelectorJson "json" "cycle.json"]) /\
  diverges Sample.rushConfig Sample.host (ISelectorJson "json" "cycle.json") "cli" /\
  ~ exists error,
      evaluates Sample.rushConfig Sample.host (ISelectorJson "json" "cycle.json") "cli"
        (Throws error).
Proof.
  split; [reflexivity |].
  assert (Hdiv : diverges Sample.rushConfig Sample.host (ISelectorJson "json" "cycle.json") "cli").
  { apply (diverges_by_invariant Sample.rushConfig Sample.host
             (fun expr =>
                expr = ISelectorJson "json" "cycle.json" \/
                expr = IOperatorJson "or"
                         [ISelectorJson "name" "A"; ISelectorJson "json" "cycle.json"]));
      [| by left].
    intros depth expr context [-> | ->] IH.
    - rewrite select_json.
      change (selectExpression Sample.rushConfig Sample.host depth
                (IOperatorJson "or" [ISelectorJson "name" "A"; ISelectorJson "json" "cycle.json"])
                ("JSON file cycle.json in " ++ context) = Unfinished).
      apply IH. by right.
    - rewrite (select_binary Sample.rushConfig Sample.host depth "or" _ _ context _
                 (or_intror (conj eq_refl eq_refl))).
      rewrite (IH (ISelectorJson "json" "cycle.json")) by (by left).
      destruct depth as [| depth]; [done |].
      by change (selectExpression Sample.rushConfig Sample.host (S depth)
                   (ISelectorJson "name" "A") context) with (Returns ["A"]). }
  split; [exact Hdiv |].
  intros [error Herror]. by apply (diverges_not_evaluates _ _ _ _ _ Hdiv) in Herror.
Qed.

(** A file that fails schema validation: the error of the loader reaches
    the caller as it is, it is not a [SelectorError]. *)
Lemma invalid_file_counterexample :
  JsonFile_loadAndValidateAsync Sample.host
    (getAbsolutePath Sample.rushConfig Sample.host "invalid.json")
  = Throws (OtherError "Error" "JSON validation failed: /repo/invalid.json") /\
  evaluates Sample.rushConfig Sample.host (ISelectorJson "json" "invalid.json") "cli"
    (Throws (OtherError "Error" "JSON validation failed: /repo/invalid.json")) /\
  ~ exists message,
      evaluates Sample.rushConfig Sample.host (ISelectorJson "json" "invalid.json") "cli"
        (Throws (SelectorError message)).
Proof.
  split; [reflexivity |].
  assert (Heval : evaluates Sample.rushConfig Sample.host
                    (ISelectorJson "json" "invalid.json") "cli"
                    (Throws (OtherError "Error" "JSON validation failed: /repo/invalid.json"))).
  { apply (evaluates_at _ _ 1); [reflexivity | discriminate]. }
  split; [exact Heval |].
  intros [message Hmessage].
  by pose proof (evaluates_unique _ _ _ _ _ _ Heval Hmessage).
Qed.

(** An operand that is [null], and the operand that [not] misses when its
    [args] are empty: the property read on it throws the [TypeError] of the
    runtime, which is no [SelectorError] and does not mention the context. *)
Lemma null_node_counterexample :
  matchesNoVariant JsNull /\
  evaluates Sample.rushConfig Sample.host JsNull "cli" (Throws TypeError) /\
  (~ exists message,
       evaluates Sample.rushConfig Sample.host JsNull "cli" (Throws (SelectorError message))) /\
  evaluates Sample.rushConfig Sample.host (IOperatorJson "not" []) "cli" (Throws TypeError).
Proof.
  assert (Heval : evaluates Sample.rushConfig Sample.host JsNull "cli" (Throws TypeError)).
  { apply (evaluates_at _ _ 1); [reflexivity | discriminate]. }
  split; [exact I |]. split; [exact Heval |]. split.
  - intros [message Hmessage].
    by pose proof (evaluates_unique _ _ _ _ _ _ Heval Hmessage).
  - apply (evaluates_at _ _ 2); [reflexivity | discriminate].
Qed.

(** A node whose [scope] is the empty string and whose [filter] is [only]:
    it is evaluated as a filter and returns the projects of its argument. *)
Lemma empty_scope_with_filter_counterexample :
  property [("scope", JsString EmptyString); ("filter", JsString "only");
            ("arg", ISelectorJson "name" "A")] "scope" = JsString EmptyString /\
  evaluates Sample.rushConfig Sample.host
    (JsObject [("scope", JsString EmptyString); ("filter", JsString "only");
               ("arg", ISelectorJson "name" "A")]) "cli"
    (Returns ["A"]) /\
  ~ exists message,
      evaluates Sample.rushConfig Sample.host
        (JsObject [("scope", JsString EmptyString); ("filter", JsString "only");
                   ("arg", ISelectorJson "name" "A")]) "cli"
        (Throws (SelectorError message)).
Proof.
  split; [reflexivity |].
  assert (Heval : evaluates Sample.rushConfig Sample.host
                    (JsObject [("scope", JsString EmptyString); ("filter", JsString "only");
                               ("arg", ISelectorJson "name" "A")]) "cli"
                    (Returns ["A"])).
  { apply (evaluates_at _ _ 2); [reflexivity | discriminate]. }
  split; [exact Heval |].
  intros [message Hmessage].
  by pose proof (evaluates_unique _ _ _ _ _ _ Heval Hmessage).
Qed.

(** ** Further behaviour of the evaluator *)

Section Edges.
Context {Project : Type} `{EqDecision Project}.
Variable rushConfig : RushConfiguration Project.
Variable host : Collaborators Project.

Local Abbreviation select := (selectExpression rushConfig host).
Local Abbreviation evaluates := (evaluates rushConfig host).

Lemma select_undefined depth context :
  select (S depth) JsUndefined context = Throws TypeError.
Proof. reflexivity. Qed.

Lemma not_in_three (x a b c : string) :
  x ∉ [a; b; c] -> String.eqb x a = false /\ String.eqb x b = false /\ String.eqb x c = false.
Proof.
  rewrite !not_elem_of_cons. intros (Ha & Hb & Hc & _).
  by rewrite !String.eqb_neq.
Qed.

(** A filter other than [to], [from] and [only] is reported by a
    [SelectorError] naming the filter and the context; its argument is not
    evaluated. *)
Theorem unknown_filter_error filter X context :
  filter <> EmptyString ->
  filter ∉ ["to"; "from"; "only"] ->
  exists message,
    (forall depth,
        select (S depth) (IFilterJson filter X) context = Throws (SelectorError message)) /\
    occursIn filter message /\ occursIn context message.
Proof.
  intros Hne Hout. apply not_in_three in Hout as (Hto & Hfrom & Honly).
  exists ("Unknown filter '" ++ filter ++ "' encountered in selector expression in "
          ++ context ++ ".").
  split; [| split; repeat (apply occursIn_here || apply occursIn_later)].
  intros depth. unfold IFilterJson. rewrite select_object. unfold property. simpl.
  apply String.eqb_neq in Hne. rewrite Hne. simpl.
  unfold _evaluateFilter. simpl. by rewrite Hto, Hfrom, Honly.
Qed.

(** An operator other than [not], [and] and [or] is reported by a
    [SelectorError] naming the operator and the context; no operand is
    evaluated. *)
Theorem unknown_operator_error op args context :
  op <> EmptyString ->
  op ∉ ["not"; "and"; "or"] ->
  exists message,
    (forall depth,
        select (S depth) (IOperatorJson op args) context = Throws (SelectorError message)) /\
    occursIn op message /\ occursIn context message.
Proof.
  intros Hne Hout. apply not_in_three in Hout as (Hnot & Hand & Hor).
  exists ("Unknown operator '" ++ op ++ "' in selector expression in " ++ context ++ ".").
  split; [| split; repeat (apply occursIn_here || apply occursIn_later)].
  intros depth. unfold IOperatorJson. rewrite select_object. unfold property. simpl.
  apply String.eqb_neq in Hne. rewrite Hne. simpl.
  unfold _evaluateOperator. simpl. by rewrite Hnot, Hand, Hor.
Qed.

Lemma select_binary_short depth op L context :
  op = "and" \/ op = "or" ->
  select (S depth) (IOperatorJson op [L]) context
  = (left ← select depth L context;
     right ← select depth JsUndefined context;
     mret (if String.eqb op "and"
           then Selection_intersection host (new_Set left) (new_Set right)
           else Selection_union host (new_Set left) (new_Set right))).
Proof. by intros [-> | ->]. Qed.

(** A filter without [arg] and an operator with too few [args] evaluate
    [undefined] in place of the missing operand: the result is the
    [TypeError] of the runtime, not a [SelectorError].  The binary operators
    evaluate their first operand before they fail on the second. *)
Theorem missing_operand_type_error :
  (forall depth context,
      select (S (S depth)) (IOperatorJson "not" []) context = Throws TypeError) /\
  (forall filter depth context,
      filter ∈ ["to"; "from"; "only"] ->
      select (S (S depth)) (JsObject [("filter", JsString filter)]) context
      = Throws TypeError) /\
  (forall op L context l,
      op = "and" \/ op = "or" ->
      evaluates L context (Returns l) ->
      evaluates (IOperatorJson op [L]) context (Throws TypeError)) /\
  (forall op L context e,
      op = "and" \/ op = "or" ->
      evaluates L context (Throws e) ->
      evaluates (IOperatorJson op [L]) context (Throws e)).
Proof.
  split; [done |]. split; [| split].
  - intros filter depth context. rewrite !elem_of_cons, elem_of_nil.
    by intros [-> | [-> | [-> | []]]].
  - intros op L context l Hop [_ [d Hd]].
    apply (evaluates_at _ _ (S (S d))); [| done].
    rewrite select_binary_short by done.
    rewrite (selectExpression_deeper _ _ d (S d) _ _ _ Hd) by (done || lia).
    by rewrite select_undefined.
  - intros op L context e Hop [_ [d Hd]].
    apply (evaluates_at _ _ (S d)); [| done].
    rewrite select_binary_short by done. by rewrite Hd.
Qed.

(** Operands beyond the arity of an operator are never looked at. *)
Theorem surplus_operands_ignored X Y extra context depth :
  select depth (IOperatorJson "not" (X :: extra)) context
  = select depth (IOperatorJson "not" [X]) context /\
  select depth (IOperatorJson "and" (X :: Y :: extra)) context
  = select depth (IOperatorJson "and" [X; Y]) context /\
  select depth (IOperatorJson "or" (X :: Y :: extra)) context
  = select depth (IOperatorJson "or" [X; Y]) context.
Proof. by destruct depth. Qed.

(** *** Negation *)

Lemma filter_agree (P Q : Project -> Prop)
    `{forall x, Decision (P x)} `{forall x, Decision (Q x)} (l : list Project) :
  (forall x, x ∈ l -> P x <-> Q x) -> filter P l = filter Q l.
Proof.
  induction l as [| x l IH]; intros Hagree; [done |].
  rewrite !filter_cons, IH by (intros y Hy; apply Hagree; by right).
  destruct (decide (P x)) as [HP | HP].
  - rewrite decide_True; [done |]. apply Hagree; [left | done].
  - rewrite decide_False; [done |]. intros HQ. apply HP. apply Hagree; [left | done].
Qed.

Lemma complement_twice (result : list Project) :
  complement rushConfig (complement rushConfig result)
  = filter (fun p => p ∈ result) (projects rushConfig).
Proof.
  unfold complement. apply filter_agree. intros x Hx.
  rewrite list_elem_of_filter. destruct (decide (x ∈ result)); tauto.
Qed.

Lemma complement_thrice (result : list Project) :
  complement rushConfig (complement rushConfig (complement rushConfig result))
  = complement rushConfig result.
Proof.
  rewrite complement_twice. unfold complement. apply filter_agree. intros x Hx.
  rewrite list_elem_of_filter. tauto.
Qed.

(** [not] returns the projects of the monorepo that its operand did not
    return, in the order of [rushConfig.projects] and as often as they occur
    there; an error of the operand is the error of the node. *)
Theorem not_selects_the_others X context :
  (forall result,
      evaluates X context (Returns result) ->
      exists others,
        evaluates (IOperatorJson "not" [X]) context (Returns others) /\
        (forall p, p ∈ others <-> p ∈ projects rushConfig /\ p ∉ result) /\
        others `sublist_of` projects rushConfig /\
        (NoDup (projects rushConfig) -> NoDup others)) /\
  (forall e,
      evaluates X context (Throws e) ->
      evaluates (IOperatorJson "not" [X]) context (Throws e)).
Proof.
  split.
  - intros result [_ [d Hd]]. exists (complement rushConfig result).
    split; [| split; [| split]].
    + apply (evaluates_at _ _ (S d)); [| done]. by rewrite select_not, Hd.
    + intros p. unfold complement. rewrite list_elem_of_filter. tauto.
    + apply sublist_filter.
    + apply NoDup_filter.
  - intros e [_ [d Hd]]. apply (evaluates_at _ _ (S d)); [| done].
    by rewrite select_not, Hd.
Qed.

(** Two negations restrict the result of [X] to the monorepo and put it in
    the order of [rushConfig.projects]; three negations are one negation. *)
Theorem repeated_negation X context :
  (forall outcome,
      evaluates (IOperatorJson "not" [IOperatorJson "not" [X]]) context outcome <->
      exists inner,
        evaluates X context inner /\
        outcome = mapOutcome (fun result => filter (fun p => p ∈ result) (projects rushConfig))
                    inner) /\
  (forall outcome,
      evaluates (IOperatorJson "not" [IOperatorJson "not" [IOperatorJson "not" [X]]])
        context outcome <->
      evaluates (IOperatorJson "not" [X]) context outcome).
Proof.
  assert (Hnot : forall Y outcome,
             evaluates (IOperatorJson "not" [Y]) context outcome <->
             exists inner,
               evaluates Y context inner /\ outcome = mapOutcome (complement rushConfig) inner).
  { intros Y. apply evaluates_mapOutcome. intros depth. apply select_not. }
  split; intros outcome.
  - rewrite Hnot. split.
    + intros (mid & Hmid & ->). apply Hnot in Hmid as (inner & Hinner & ->).
      exists inner. split; [done |]. destruct inner; simpl; [| done | done].
      by rewrite complement_twice.
    + intros (inner & Hinner & ->). exists (mapOutcome (complement rushConfig) inner).
      split; [apply Hnot; by exists inner |].
      destruct inner; simpl; [| done | done]. by rewrite complement_twice.
  - rewrite (Hnot (IOperatorJson "not" [IOperatorJson "not" [X]])), (Hnot X). split.
    + intros (mid2 & Hmid2 & ->). apply Hnot in Hmid2 as (mid1 & Hmid1 & ->).
      apply Hnot in Hmid1 as (inner & Hinner & ->).
      exists inner. split; [done |]. destruct inner; simpl; [| done | done].
      by rewrite complement_thrice.
    + intros (inner & Hinner & ->).
      exists (mapOutcome (complement rushConfig) (mapOutcome (complement rushConfig) inner)).
      split.
      * apply Hnot. exists (mapOutcome (complement rushConfig) inner).
        split; [apply Hnot; by exists inner | done].
      * destruct inner; simpl; [| done | done]. by rewrite complement_thrice.
Qed.

(** *** Selectors *)

Lemma registry_entries :
  _scopes !! "name" = Some NamedProjectSelectorParser /\
  _scopes !! "git" = Some GitChangedProjectSelectorParser /\
  _scopes !! "tag" = Some TagProjectSelectorParser /\
  _scopes !! "version-policy" = Some VersionPolicyProjectSelectorParser.
Proof. by repeat split. Qed.

Lemma select_selector depth scope value context parser :
  scope <> EmptyString ->
  _scopes !! scope = Some parser ->
  select (S depth) (ISelectorJson scope value) context
  = evaluateSelectorAsync rushConfig host parser (select depth)
      {| unscopedSelector := JsString value; terminal := JsUndefined; context := context |}.
Proof.
  intros Hne Hparser. unfold ISelectorJson. rewrite select_object. unfold property. simpl.
  apply String.eqb_neq in Hne. rewrite Hne. simpl.
  unfold _evaluateSelector. simpl. by rewrite Hparser.
Qed.

(** A selector of the scope [name], [git], [tag] or [version-policy] is what
    the parser of that scope makes of the value and the unchanged context:
    its projects in its order when it returns, its error when it throws. *)
Theorem selector_is_its_parser value context depth :
  let options :=
    {| unscopedSelector := JsString value; terminal := JsUndefined; context := context |} in
  select (S depth) (ISelectorJson "name" value) context
  = Named_evaluateSelectorAsync host options /\
  select (S depth) (ISelectorJson "git" value) context
  = GitChanged_evaluateSelectorAsync host options /\
  select (S depth) (ISelectorJson "tag" value) context
  = Tag_evaluateSelectorAsync host options /\
  select (S depth) (ISelectorJson "version-policy" value) context
  = VersionPolicy_evaluateSelectorAsync host options.
Proof.
  destruct registry_entries as (Hname & Hgit & Htag & Hpolicy).
  intros options.
  rewrite (select_selector depth "name" value context _) by done.
  rewrite (select_selector depth "git" value context _) by done.
  rewrite (select_selector depth "tag" value context _) by done.
  by rewrite (select_selector depth "version-policy" value context _) by done.
Qed.

(** *** The JSON-file scope, continued *)

(** A [json] selector whose file loads evaluates the loaded expression, with
    the context extended by the selector: both complete together and with
    the same outcome. *)
Theorem json_selector_evaluates_its_file value context expr :
  JsonFile_loadAndValidateAsync host (getAbsolutePath rushConfig host value) = Returns expr ->
  truthy expr = true ->
  forall outcome,
    evaluates (ISelectorJson "json" value) context outcome <->
    evaluates expr ("JSON file " ++ value ++ " in " ++ context) outcome.
Proof.
  intros Hload Htruthy outcome.
  assert (Hstep : forall depth,
             select (S depth) (ISelectorJson "json" value) context
             = select depth expr ("JSON file " ++ value ++ " in " ++ context)).
  { intros depth. rewrite select_json.
    unfold JsonFile_evaluateSelectorAsync, tryLoadAsync, loadAsync. simpl.
    rewrite Hload. simpl. by rewrite Htruthy. }
  split.
  - intros [Hdone [[| d] Hd]]; [by subst |].
    rewrite Hstep in Hd. by apply (evaluates_at _ _ d).
  - intros [Hdone [d Hd]]. apply (evaluates_at _ _ (S d)); [| done].
    by rewrite Hstep.
Qed.

(** A file that loads as a falsy value ([null], [false], [0] or the empty
    string) is reported like a file that does not exist. *)
Theorem falsy_file_reported_missing value context expr :
  JsonFile_loadAndValidateAsync host (getAbsolutePath rushConfig host value) = Returns expr ->
  truthy expr = false ->
  forall depth,
    select (S depth) (ISelectorJson "json" value) context
    = Throws (SelectorError
                (fileNotFoundMessage (getAbsolutePath rushConfig host value) context)).
Proof.
  intros Hload Hfalsy depth. rewrite select_json.
  unfold JsonFile_evaluateSelectorAsync, tryLoadAsync, loadAsync. simpl.
  rewrite Hload. simpl. by rewrite Hfalsy.
Qed.

(** A [json] selector whose value is not a string fails with the
    [TypeError] of the runtime before any file is read: the outcome is the
    same whatever the loader would do. *)
Theorem json_selector_needs_a_string value context depth :
  (forall file, value <> JsString file) ->
  select (S depth) (JsObject [("scope", JsString "json"); ("value", value)]) context
  = Throws TypeError.
Proof.
  intros Hvalue. rewrite select_object. unfold property. simpl.
  unfold _evaluateSelector. simpl. rewrite registry_json. simpl.
  unfold JsonFile_evaluateSelectorAsync. simpl.
  destruct value; try done. by destruct (Hvalue s).
Qed.

(** *** Expressions without the [json] scope always complete *)

Lemma weight_array (l : list JsValue) :
  weight (JsArray l) = S (sum_list (weight <$> l)).
Proof.
  simpl. f_equal. induction l as [| x l IH]; [done |]. simpl. by rewrite IH.
Qed.

Lemma weight_object (properties : list (string * JsValue)) :
  weight (JsObject properties) = S (sum_list ((fun kv => weight kv.2) <$> properties)).
Proof.
  simpl. f_equal. induction properties as [| [k x] l IH]; [done |]. simpl. by rewrite IH.
Qed.

Lemma usesJsonScope_array (l : list JsValue) :
  usesJsonScope (JsArray l) = existsb usesJsonScope l.
Proof.
  simpl. induction l as [| x l IH]; [done |]. simpl. by rewrite IH.
Qed.

Lemma usesJsonScope_object (properties : list (string * JsValue)) :
  usesJsonScope (JsObject properties)
  = strictEqualsString (property properties "scope") "json"
    || existsb (fun kv => usesJsonScope kv.2) properties.
Proof.
  simpl. f_equal. induction properties as [| [k x] l IH]; [done |]. simpl. by rewrite IH.
Qed.

Lemma ownProperty_weight properties key v :
  ownProperty key properties = Some v ->
  weight v <= sum_list ((fun kv => weight kv.2) <$> properties).
Proof.
  induction properties as [| [k x] l IH]; [done |]. cbn.
  destruct (String.eqb k key); [intros [= ->]; lia |].
  intros Hown. specialize (IH Hown). lia.
Qed.

Lemma ownProperty_free properties key v :
  existsb (fun kv => usesJsonScope kv.2) properties = false ->
  ownProperty key properties = Some v ->
  usesJsonScope v = false.
Proof.
  induction properties as [| [k x] l IH]; [done |]. simpl.
  intros Hfree. apply orb_false_elim in Hfree as [Hx Hl].
  destruct (String.eqb k key); [by intros; simplify_eq | by apply IH].
Qed.

Lemma partOf_undefined properties : partOf (JsObject properties) JsUndefined.
Proof. split; [rewrite weight_object; simpl; lia | done]. Qed.

Lemma partOf_property properties key :
  partOf (JsObject properties) (property properties key).
Proof.
  unfold property. destruct (ownProperty key properties) as [v |] eqn:Hown;
    [| apply partOf_undefined].
  simpl. unfold partOf. rewrite weight_object, usesJsonScope_object. split.
  - apply ownProperty_weight in Hown. lia.
  - intros Hfree. apply orb_false_elim in Hfree as [_ Hfree].
    by apply (ownProperty_free properties key).
Qed.

Lemma partOf_index parent v i x :
  partOf parent v ->
  getIndex v i = Returns x ->
  partOf parent x.
Proof.
  intros [Hlt Hfree] Hget.
  assert (Hleaf : forall y, weight y = 0 -> usesJsonScope y = false -> partOf parent y).
  { intros y Hy Hyfree. split; [lia | done]. }
  destruct v; simpl in Hget; simplify_eq; try (by apply Hleaf).
  - by destruct (String.get i s); apply Hleaf.
  - destruct (elements !! i) as [y |] eqn:Hy; simpl; [| by apply Hleaf].
    rewrite weight_array in Hlt. rewrite usesJsonScope_array in Hfree. split.
    + apply list_elem_of_lookup_2 in Hy.
      assert (weight y <= sum_list (weight <$> elements)); [| lia].
      clear -Hy. induction Hy as [| ? ? ? ? IH]; csimpl; lia.
    + intros Hparent. specialize (Hfree Hparent).
      apply list_elem_of_lookup_2 in Hy. clear -Hy Hfree.
      induction Hy as [| ? ? ? ? IH]; simpl in Hfree;
        apply orb_false_elim in Hfree as [? ?]; auto.
  - destruct (partOf_property properties (pretty i)) as [Hlt' Hfree'].
    split; [fold (property properties (pretty i)); lia |].
    intros Hparent. by apply Hfree', Hfree.
Qed.

Lemma completed_bind {A B} (m : Outcome A) (k : A -> Outcome B) :
  completed m ->
  (forall a, m = Returns a -> completed (k a)) ->
  completed (m ≫= k).
Proof. destruct m as [a | e |]; [by intros _ Hk; apply Hk | done | done]. Qed.

Lemma completed_map {A B} (m : Outcome A) (f : A -> B) :
  completed m -> completed (a ← m; mret (f a)).
Proof. by destruct m. Qed.

Lemma _scopes_get_json scope :
  _scopes_get scope = Some JsonFileSelectorParser -> scope = JsString "json".
Proof.
  destruct scope as [| | | | s | | |]; try done. simpl. unfold _scopes.
  rewrite !lookup_insert, lookup_empty.
  repeat case_decide; subst; by intros.
Qed.

Lemma selectExpression_completes depth :
  parsersSettle host ->
  forall expr context,
    weight expr < depth ->
    usesJsonScope expr = false ->
    completed (select depth expr context).
Proof.
  intros (Hname & Hgit & Htag & Hpolicy).
  induction depth as [| depth IH]; intros expr context Hweight Hfree; [lia |].
  assert (Hpart : forall v, partOf expr v -> completed (select depth v context)).
  { intros v [Hlt Hv]. apply IH; [lia | by apply Hv]. }
  destruct expr as [| | b | n | s | elements | properties | name]; try done.
  rewrite select_object.
  assert (Hprop : forall key, completed (select depth (property properties key) context)).
  { intros key. apply Hpart, partOf_property. }
  assert (Hargs : forall i,
             completed (arg ← argsAt (JsObject properties) i; select depth arg context)).
  { intros i. unfold argsAt. simpl. fold (property properties "args").
    apply completed_bind.
    - by destruct (property properties "args").
    - intros arg Harg. apply Hpart.
      by apply (partOf_index _ (property properties "args") i); [apply partOf_property |]. }
  destruct (truthy (property properties "scope")) eqn:Hscope.
  { unfold _evaluateSelector. simpl. fold (property properties "scope").
    destruct (_scopes_get (property properties "scope")) as [parser |] eqn:Hparser; [| done].
    simpl. destruct parser; simpl; auto.
    apply _scopes_get_json in Hparser.
    rewrite usesJsonScope_object, Hparser in Hfree. done. }
  destruct (truthy (property properties "filter")) eqn:Hfilter.
  { unfold _evaluateFilter. simpl. fold (property properties "filter").
    fold (property properties "arg").
    repeat case_match; try done; by apply completed_map. }
  destruct (truthy (property properties "op")) eqn:Hop; [| done].
  unfold _evaluateOperator. simpl. fold (property properties "op").
  repeat case_match; try done.
  - specialize (Hargs 0). unfold argsAt in *. simpl in *.
    destruct (getIndex _ 0) as [arg0 | |]; simpl in *; [| done | done].
    by apply completed_map.
  - pose proof (Hargs 0) as Hfirst. pose proof (Hargs 1) as Hsecond.
    unfold argsAt in *. simpl in *.
    destruct (getIndex _ 0) as [arg0 | |]; simpl in *; [| done | done].
    apply completed_bind; [done |]. intros left _.
    destruct (getIndex _ 1) as [arg1 | |]; simpl in *; [| done | done].
    by apply completed_map.
  - pose proof (Hargs 0) as Hfirst. pose proof (Hargs 1) as Hsecond.
    unfold argsAt in *. simpl in *.
    destruct (getIndex _ 0) as [arg0 | |]; simpl in *; [| done | done].
    apply completed_bind; [done |]. intros left _.
    destruct (getIndex _ 1) as [arg1 | |]; simpl in *; [| done | done].
    by apply completed_map.
Qed.

(** An expression in which no object has the scope [json] always completes,
    with a list of projects or with an error, within one activation more than
    it has arrays and objects, provided the parsers of the other scopes
    settle. *)
Theorem json_free_expression_completes expr context :
  parsersSettle host ->
  usesJsonScope expr = false ->
  completed (select (S (weight expr)) expr context) /\
  exists outcome, evaluates expr context outcome.
Proof.
  intros Hsettle Hfree.
  assert (Hdone : completed (select (S (weight expr)) expr context)).
  { apply selectExpression_completes; [done | lia | done]. }
  split; [done |]. eexists. by apply (evaluates_at _ _ (S (weight expr))).
Qed.

(** *** The context only shows in errors *)

Lemma sameReturn_refl {A} (o : Outcome A) : sameReturn o o.
Proof. by intros a. Qed.

Lemma sameReturn_throw {A} e (o : Outcome A) : sameReturn (Throws e) o.
Proof. by intros a. Qed.

Lemma sameReturn_bind {A B} (m m' : Outcome A) (k k' : A -> Outcome B) :
  sameReturn m m' ->
  (forall a, sameReturn (k a) (k' a)) ->
  sameReturn (m ≫= k) (m' ≫= k').
Proof.
  intros Hm Hk b Hb. destruct m as [a | e |]; simpl in Hb; [| done | done].
  rewrite (Hm a eq_refl). simpl. by apply Hk.
Qed.

Lemma selectExpression_body_contextBlind this :
  parsersContextBlind host ->
  (forall expr context context', sameReturn (this expr context) (this expr context')) ->
  forall expr context context',
    sameReturn (selectExpression_body rushConfig host this expr context)
               (selectExpression_body rushConfig host this expr context').
Proof.
  intros (Hname & Hgit & Htag & Hpolicy) Hthis expr context context'.
  unfold selectExpression_body.
  apply sameReturn_bind; [apply sameReturn_refl | intros [|]].
  { unfold _evaluateSelector. apply sameReturn_bind; [apply sameReturn_refl | intros scope].
    destruct (_scopes_get scope) as [parser |];
      (apply sameReturn_bind; [apply sameReturn_refl | intros value]);
      [| apply sameReturn_throw].
    destruct parser; simpl; auto.
    unfold JsonFile_evaluateSelectorAsync. simpl.
    apply sameReturn_bind; [apply sameReturn_refl | intros absolutePath].
    apply sameReturn_bind; [apply sameReturn_refl | intros loaded].
    destruct (negb (truthy loaded)); [apply sameReturn_throw | apply Hthis]. }
  apply sameReturn_bind; [apply sameReturn_refl | intros [|]].
  { unfold _evaluateFilter. apply sameReturn_bind; [apply sameReturn_refl | intros filter].
    repeat case_match; try apply sameReturn_throw;
      (apply sameReturn_bind; [apply sameReturn_refl | intros exprArg]);
      (apply sameReturn_bind; [apply Hthis | intros arg; apply sameReturn_refl]). }
  apply sameReturn_bind; [apply sameReturn_refl | intros [|]]; [| apply sameReturn_throw].
  unfold _evaluateOperator. apply sameReturn_bind; [apply sameReturn_refl | intros op].
  repeat case_match; try apply sameReturn_throw.
  - apply sameReturn_bind; [apply sameReturn_refl | intros arg0].
    apply sameReturn_bind; [apply Hthis | intros result; apply sameReturn_refl].
  - apply sameReturn_bind; [apply sameReturn_refl | intros arg0].
    apply sameReturn_bind; [apply Hthis | intros left].
    apply sameReturn_bind; [apply sameReturn_refl | intros arg1].
    apply sameReturn_bind; [apply Hthis | intros right; apply sameReturn_refl].
  - apply sameReturn_bind; [apply sameReturn_refl | intros arg0].
    apply sameReturn_bind; [apply Hthis | intros left].
    apply sameReturn_bind; [apply sameReturn_refl | intros arg1].
    apply sameReturn_bind; [apply Hthis | intros right; apply sameReturn_refl].
Qed.

(** The context string is used for error messages only: with parsers whose
    selection does not depend on it, an expression that returns a list of
    projects under one context returns the same list under every context. *)
Theorem context_only_in_errors expr context context' result :
  parsersContextBlind host ->
  evaluates expr context (Returns result) ->
  evaluates expr context' (Returns result).
Proof.
  intros Hblind [_ [depth Hdepth]]. apply (evaluates_at _ _ depth); [| done].
  revert expr context context' result Hdepth.
  induction depth as [| depth IH]; intros expr context context' result Hdepth; [done |].
  apply (selectExpression_body_contextBlind (select depth) Hblind) with (context := context);
    [| done].
  intros e c c' l. apply IH.
Qed.

End Edges.

(** ** [rush add]: the [--package] values *)

Lemma split_plain s :
  AddAction.contains AddAction.atSign s = false ->
  AddAction.split AddAction.atSign s = (s, []).
Proof.
  induction s as [| c s IH]; [done |]. simpl.
  intros Hs. apply orb_false_elim in Hs as [Hc Hs].
  by rewrite (IH Hs), Hc.
Qed.

Lemma split_String c s :
  AddAction.split AddAction.atSign (String c s)
  = if Ascii.eqb c AddAction.atSign
    then (EmptyString, (AddAction.split AddAction.atSign s).1
                       :: (AddAction.split AddAction.atSign s).2)
    else (String c (AddAction.split AddAction.atSign s).1,
          (AddAction.split AddAction.atSign s).2).
Proof. simpl. by destruct (AddAction.split AddAction.atSign s). Qed.

Lemma split_at s rest :
  AddAction.contains AddAction.atSign s = false ->
  AddAction.split AddAction.atSign (s ++ "@" ++ rest)
  = (s, (AddAction.split AddAction.atSign rest).1
        :: (AddAction.split AddAction.atSign rest).2).
Proof.
  induction s as [| c s IH].
  - intros _. change (EmptyString ++ "@" ++ rest) with (String AddAction.atSign rest).
    by rewrite split_String.
  - intros Hs. simpl in Hs. apply orb_false_elim in Hs as [Hc Hs].
    change (String c s ++ "@" ++ rest) with (String c (s ++ "@" ++ rest)).
    by rewrite split_String, (IH Hs), Hc.
Qed.

Lemma split_scoped rest :
  AddAction.split AddAction.atSign ("@" ++ rest)
  = (EmptyString, (AddAction.split AddAction.atSign rest).1
                  :: (AddAction.split AddAction.atSign rest).2).
Proof. apply (split_at EmptyString rest eq_refl). Qed.

Lemma eqb_empty_false s : s <> EmptyString -> String.eqb s EmptyString = false.
Proof. by rewrite String.eqb_neq. Qed.

(** A package name and a version, neither with an [@] inside, joined by [@]
    are read back as they were, for a plain name and for a scoped name
    (one that starts with [@]); without a version the name is read alone. *)
Theorem nameAndVersion_round_trip name version :
  AddAction.contains AddAction.atSign name = false ->
  AddAction.contains AddAction.atSign version = false ->
  name <> EmptyString ->
  AddAction.nameAndVersion (name ++ "@" ++ version) = (name, Some version) /\
  AddAction.nameAndVersion name = (name, None) /\
  AddAction.nameAndVersion ("@" ++ name ++ "@" ++ version) = ("@" ++ name, Some version) /\
  AddAction.nameAndVersion ("@" ++ name) = ("@" ++ name, None).
Proof.
  intros Hname Hversion Hne. unfold AddAction.nameAndVersion.
  split; [| split; [| split]].
  - rewrite (split_at name version Hname), (split_plain version Hversion). simpl.
    by rewrite (eqb_empty_false name Hne).
  - rewrite (split_plain name Hname). by rewrite (eqb_empty_false name Hne).
  - rewrite split_scoped.
    by rewrite (split_at name version Hname), (split_plain version Hversion).
  - rewrite split_scoped. by rewrite (split_plain name Hname).
Qed.

(** What follows a second [@] (a third one for a scoped name) is dropped
    without a word; and the empty value reads as the package [@undefined]. *)
Theorem nameAndVersion_drops_the_rest name version rest :
  AddAction.contains AddAction.atSign name = false ->
  AddAction.contains AddAction.atSign version = false ->
  name <> EmptyString ->
  AddAction.nameAndVersion (name ++ "@" ++ version ++ "@" ++ rest) = (name, Some version) /\
  AddAction.nameAndVersion ("@" ++ name ++ "@" ++ version ++ "@" ++ rest)
  = ("@" ++ name, Some version) /\
  AddAction.nameAndVersion EmptyString = ("@undefined", None).
Proof.
  intros Hname Hversion Hne. unfold AddAction.nameAndVersion.
  split; [| split; [| done]].
  - rewrite (split_at name (version ++ "@" ++ rest) Hname).
    rewrite (split_at version rest Hversion). simpl.
    by rewrite (eqb_empty_false name Hne).
  - rewrite split_scoped.
    rewrite (split_at name (version ++ "@" ++ rest) Hname).
    by rewrite (split_at version rest Hversion).
Qed.

(** ** [rush add]: from the command line to [doRushAdd] *)

Section RushAdd.
Context {Project : Type}.
Variable isValidName : string -> bool.
Variable versionSpecifier : string -> string -> Outcome string.
Variable semver_validRange : string -> bool.
Variable semver_valid : string -> bool.
Variable parameters : AddAction.Parameters.

Local Abbreviation accepts :=
  (AddAction.accepts isValidName versionSpecifier semver_validRange semver_valid parameters).
Local Abbreviation addPackage :=
  (AddAction.addPackage isValidName versionSpecifier semver_validRange semver_valid parameters).
Local Abbreviation addPackages :=
  (AddAction.addPackages isValidName versionSpecifier semver_validRange semver_valid parameters).
Local Abbreviation runAsync :=
  (AddAction.runAsync (Project := Project)
     isValidName versionSpecifier semver_validRange semver_valid parameters).
Local Abbreviation styleFor := (AddAction.styleFor parameters).

(** The name of a [--package] value with its version, and with its style. *)
Local Abbreviation versioned := (fun s : string => AddAction.nameAndVersion s).
Local Abbreviation styled :=
  (fun s : string => ((AddAction.nameAndVersion s).1, styleFor (AddAction.nameAndVersion s).2)).

Lemma setAll_cons {V} (entry : string * V) entries (m : gmap string V) :
  AddAction.setAll (entry :: entries) m = AddAction.setAll entries (<[entry.1 := entry.2]> m).
Proof. reflexivity. Qed.

Lemma setAll_app {V} (before after : list (string * V)) (m : gmap string V) :
  AddAction.setAll (before ++ after) m = AddAction.setAll after (AddAction.setAll before m).
Proof. unfold AddAction.setAll. by rewrite foldl_app. Qed.

Lemma setAll_absent {V} (entries : list (string * V)) (m : gmap string V) key :
  key ∉ entries.*1 -> AddAction.setAll entries m !! key = m !! key.
Proof.
  revert m. induction entries as [| [k v] entries IH]; intros m Hkey; [done |].
  rewrite setAll_cons. rewrite fmap_cons, not_elem_of_cons in Hkey.
  destruct Hkey as [Hne Hkey]. rewrite (IH _ Hkey). by rewrite lookup_insert_ne.
Qed.

Lemma setAll_source {V} (entries : list (string * V)) (m : gmap string V) key v :
  AddAction.setAll entries m !! key = Some v ->
  m !! key = Some v \/ (key, v) ∈ entries.
Proof.
  revert m. induction entries as [| [k w] entries IH]; intros m Hkey; [by left |].
  rewrite setAll_cons in Hkey. destruct (IH _ Hkey) as [Hm | Hin]; [| right; by right].
  simpl in Hm. rewrite lookup_insert in Hm. case_decide; simplify_eq.
  - right. left.
  - by left.
Qed.

Lemma setAll_keys {V} (entries : list (string * V)) (m : gmap string V) key :
  is_Some (AddAction.setAll entries m !! key) <-> is_Some (m !! key) \/ key ∈ entries.*1.
Proof.
  revert m. induction entries as [| [k v] entries IH]; intros m.
  - rewrite fmap_nil, elem_of_nil. simpl. tauto.
  - rewrite setAll_cons, IH, fmap_cons, elem_of_cons. simpl.
    rewrite lookup_insert. case_decide; subst.
    + split; [intros _ | intros _; left; by eexists]. right. by left.
    + split; [intros [? | ?]; tauto |]. intros [? | [? | ?]]; try tauto. congruence.
Qed.

Lemma setAll_styles (specified : list string) (versions : gmap string (option string))
    (styles : gmap string AddAction.SemVerStyle) :
  (forall key, styles !! key = styleFor <$> versions !! key) ->
  forall key,
    AddAction.setAll (styled <$> specified) styles !! key
    = styleFor <$> AddAction.setAll (versioned <$> specified) versions !! key.
Proof.
  revert versions styles.
  induction specified as [| s specified IH]; intros versions styles Hagree key; [apply Hagree |].
  rewrite !fmap_cons, !setAll_cons. apply IH. intros k. simpl.
  rewrite !lookup_insert. case_decide; [done | apply Hagree].
Qed.

Lemma addPackage_returns collected specifiedPackageName collected' :
  addPackage collected specifiedPackageName = Returns collected' <->
  accepts specifiedPackageName /\
  collected' =
    {| AddAction.packageNames :=
         AddAction.packageNames collected ++ [(versioned specifiedPackageName).1];
       AddAction.initialVersions :=
         <[(versioned specifiedPackageName).1 := (versioned specifiedPackageName).2]>
           (AddAction.initialVersions collected);
       AddAction.rangeStyles :=
         <[(styled specifiedPackageName).1 := (styled specifiedPackageName).2]>
           (AddAction.rangeStyles collected) |}.
Proof.
  unfold AddAction.addPackage, AddAction.accepts, AddAction.styleFor.
  destruct (AddAction.nameAndVersion specifiedPackageName) as [name version]. simpl.
  destruct (isValidName name); simpl; [| by split; [| intros [[? _] _]]].
  destruct (AddAction.checkVersion _ _ _ name version) as [[] | e |]; simpl;
    [| by split; [| intros [(_ & ? & _) _]] | by split; [| intros [(_ & ? & _) _]]].
  destruct (AddAction.givenVersion version); simpl.
  - destruct (AddAction._exactFlag parameters || AddAction._caretFlag parameters).
    + split; [done |]. intros [(_ & _ & Hflags) _]. by specialize (Hflags eq_refl).
    + split; [intros [= <-]; by repeat split | by intros [_ ->]].
  - split; [intros [= <-]; by repeat split | by intros [_ ->]].
Qed.

Lemma addPackages_returns specified collected collected' :
  addPackages collected specified = Returns collected' <->
  Forall accepts specified /\
  collected' =
    {| AddAction.packageNames := AddAction.packageNames collected ++ (versioned <$> specified).*1;
       AddAction.initialVersions :=
         AddAction.setAll (versioned <$> specified) (AddAction.initialVersions collected);
       AddAction.rangeStyles :=
         AddAction.setAll (styled <$> specified) (AddAction.rangeStyles collected) |}.
Proof.
  revert collected. induction specified as [| s specified IH]; intros collected.
  - simpl. rewrite app_nil_r. destruct collected. simpl.
    split; [intros [= <-]; by split | by intros [_ ->]].
  - simpl. split.
    + destruct (addPackage collected s) as [next | e |] eqn:Hs; simpl; [| done | done].
      apply addPackage_returns in Hs as [Hs ->].
      intros Hrest. apply IH in Hrest as [Hrest ->]. simpl.
      split; [by constructor |]. by rewrite <- app_assoc.
    + intros [Hall ->]. apply Forall_cons in Hall as [Hs Hrest].
      pose proof (proj2 (addPackage_returns collected s _) (conj Hs eq_refl)) as Hstep.
      rewrite Hstep. simpl. apply IH. split; [done |]. simpl. by rewrite <- app_assoc.
Qed.

Lemma runAsync_returns allProjects currentProject isDebug options :
  runAsync allProjects currentProject isDebug = Returns options <->
  (AddAction._allFlag parameters = true \/ is_Some currentProject) /\
  AddAction._caretFlag parameters && AddAction._exactFlag parameters = false /\
  Forall accepts (AddAction._packageNameList parameters) /\
  options =
    {| AddAction.projects :=
         if AddAction._allFlag parameters then allProjects else option_list currentProject;
       AddAction.addedPackageNames :=
         (versioned <$> AddAction._packageNameList parameters).*1;
       AddAction.addedInitialVersions :=
         AddAction.setAll (versioned <$> AddAction._packageNameList parameters) ∅;
       AddAction.devDependency := AddAction._devDependencyFlag parameters;
       AddAction.updateOtherPackages := AddAction._makeConsistentFlag parameters;
       AddAction.skipUpdate := AddAction._skipUpdateFlag parameters;
       AddAction.debugInstall := isDebug;
       AddAction.addedRangeStyles :=
         AddAction.setAll (styled <$> AddAction._packageNameList parameters) ∅ |}.
Proof.
  unfold AddAction.runAsync.
  set (initial := {| AddAction.packageNames := []; AddAction.initialVersions := ∅;
                     AddAction.rangeStyles := ∅ |}).
  pose proof (addPackages_returns (AddAction._packageNameList parameters) initial) as Hloop.
  destruct (addPackages initial (AddAction._packageNameList parameters))
    as [collected | e |].
  - destruct (proj1 (Hloop collected) eq_refl) as [Haccepted ->]. clear Hloop.
    destruct (AddAction._allFlag parameters); simpl.
    + destruct (AddAction._caretFlag parameters && AddAction._exactFlag parameters); simpl;
        [by split; [| intros (_ & ? & _)] |].
      split; [intros [= <-]; by repeat split; auto | by intros (_ & _ & _ & ->)].
    + destruct currentProject as [project |]; simpl;
        [| by split; [| intros ([? | [? ?]] & _)]].
      destruct (AddAction._caretFlag parameters && AddAction._exactFlag parameters); simpl;
        [by split; [| intros (_ & ? & _)] |].
      split; [intros [= <-]; by repeat split; eauto | by intros (_ & _ & _ & ->)].
  - split.
    + destruct (AddAction._allFlag parameters); simpl;
        [| destruct currentProject; simpl; [| done]];
        by destruct (AddAction._caretFlag parameters && AddAction._exactFlag parameters).
    + intros (_ & _ & Haccepted & _).
      by pose proof (proj2 (Hloop _) (conj Haccepted eq_refl)).
  - split.
    + destruct (AddAction._allFlag parameters); simpl;
        [| destruct currentProject; simpl; [| done]];
        by destruct (AddAction._caretFlag parameters && AddAction._exactFlag parameters).
    + intros (_ & _ & Haccepted & _).
      by pose proof (proj2 (Hloop _) (conj Haccepted eq_refl)).
Qed.


(** The options [runAsync] hands to [doRushAdd]: all projects under [--all]
    and the current project otherwise; the package names in the order of the
    command line, one for each [--package] value, repetitions kept; in the two
    maps an entry for exactly these names; the flags as given. *)
Theorem runAsync_options allProjects currentProject isDebug options :
  runAsync allProjects currentProject isDebug = Returns options ->
  AddAction.projects options
  = (if AddAction._allFlag parameters then allProjects else option_list currentProject) /\
  AddAction.addedPackageNames options
  = (fun s => (AddAction.nameAndVersion s).1) <$> AddAction._packageNameList parameters /\
  Forall (fun name => isValidName name = true) (AddAction.addedPackageNames options) /\
  (forall name,
      is_Some (AddAction.addedInitialVersions options !! name) <->
      name ∈ AddAction.addedPackageNames options) /\
  (forall name,
      is_Some (AddAction.addedRangeStyles options !! name) <->
      name ∈ AddAction.addedPackageNames options) /\
  AddAction.devDependency options = AddAction._devDependencyFlag parameters /\
  AddAction.updateOtherPackages options = AddAction._makeConsistentFlag parameters /\
  AddAction.skipUpdate options = AddAction._skipUpdateFlag parameters /\
  AddAction.debugInstall options = isDebug.
Proof.
  intros Hrun. apply runAsync_returns in Hrun as (_ & _ & Haccepted & ->). simpl.
  assert (Hnames : (versioned <$> AddAction._packageNameList parameters).*1
                   = (fun s => (AddAction.nameAndVersion s).1)
                       <$> AddAction._packageNameList parameters).
  { by rewrite <- list_fmap_compose. }
  assert (Hstyled : (styled <$> AddAction._packageNameList parameters).*1
                    = (versioned <$> AddAction._packageNameList parameters).*1).
  { by rewrite <- !list_fmap_compose. }
  repeat split; try done.
  - rewrite Hnames. apply Forall_fmap. eapply Forall_impl; [exact Haccepted |].
    by intros s (Hvalid & _).
  - rewrite setAll_keys, lookup_empty. intros [[? ?] | ?]; done.
  - intros Hin. rewrite setAll_keys. by right.
  - rewrite setAll_keys, lookup_empty, Hstyled. intros [[? ?] | ?]; done.
  - intros Hin. rewrite setAll_keys, Hstyled. by right.
Qed.

(** On the way to [doRushAdd] the two maps agree: a package whose recorded
    version is a given one (not empty, not [latest]) has the style
    [Passthrough], every other package the style of the flags ([Caret] under
    [--caret], [Exact] under [--exact], [Tilde] without either); under
    [--caret] or [--exact] no recorded version is a given one; and the
    version recorded for a name is that of its last [--package] value. *)
Theorem runAsync_versions_and_styles allProjects currentProject isDebug options :
  runAsync allProjects currentProject isDebug = Returns options ->
  (forall name,
      AddAction.addedRangeStyles options !! name
      = styleFor <$> AddAction.addedInitialVersions options !! name) /\
  (AddAction._exactFlag parameters || AddAction._caretFlag parameters = true ->
   forall name version,
     AddAction.addedInitialVersions options !! name = Some version ->
     AddAction.givenVersion version = false /\
     AddAction.addedRangeStyles options !! name = Some (AddAction.flagStyle parameters)) /\
  (forall before last after,
      AddAction._packageNameList parameters = (before ++ last :: after)%list ->
      (AddAction.nameAndVersion last).1
        ∉ (fun s => (AddAction.nameAndVersion s).1) <$> after ->
      AddAction.addedInitialVersions options !! (AddAction.nameAndVersion last).1
      = Some (AddAction.nameAndVersion last).2).
Proof.
  intros Hrun. apply runAsync_returns in Hrun as (_ & _ & Haccepted & ->). simpl.
  assert (Hagree : forall name,
             AddAction.setAll (styled <$> AddAction._packageNameList parameters) ∅ !! name
             = styleFor <$> AddAction.setAll
                              (versioned <$> AddAction._packageNameList parameters) ∅ !! name).
  { apply setAll_styles. intros key. by rewrite !lookup_empty. }
  split; [exact Hagree |]. split.
  - intros Hflags name version Hversion.
    assert (Hgiven : AddAction.givenVersion version = false).
    { apply setAll_source in Hversion as [Hempty | Hin]; [by rewrite lookup_empty in Hempty |].
      apply list_elem_of_fmap in Hin as (s & Heq & Hs).
      rewrite Forall_forall in Haccepted. destruct (Haccepted s Hs) as (_ & _ & Hno).
      rewrite <- Heq in Hno. simpl in Hno.
      destruct (AddAction.givenVersion version); [| done].
      specialize (Hno eq_refl). congruence. }
    split; [done |]. rewrite Hagree, Hversion. simpl.
    unfold AddAction.styleFor. by rewrite Hgiven.
  - intros before last after Hlist Hlast. rewrite Hlist.
    rewrite fmap_app, fmap_cons, setAll_app, setAll_cons.
    rewrite setAll_absent; [by rewrite lookup_insert_eq |].
    by rewrite <- list_fmap_compose.
Qed.

End RushAdd.

(** ** The cache of [LocalMinifier] *)

Section MinifierCache.
Context {Request : Type}.
Variable requestHash : Request -> string.
Variable callback : LocalMinifier.IModuleMinificationResult -> option JsError.

Local Abbreviation minify := (LocalMinifier.minify requestHash callback).
Local Abbreviation settled := (LocalMinifier.settled requestHash callback).
Local Abbreviation step := (LocalMinifier.step requestHash callback).
Local Abbreviation run := (LocalMinifier.run requestHash callback).

Lemma run_cons cache event events :
  run cache (event :: events) = run (LocalMinifier._resultCache (step cache event)) events.
Proof. reflexivity. Qed.

Lemma run_app cache before after :
  run cache (before ++ after) = run (run cache before) after.
Proof. unfold LocalMinifier.run. by rewrite foldl_app. Qed.

Lemma minify_keeps_cache cache request :
  LocalMinifier._resultCache (minify cache request) = cache.
Proof. unfold LocalMinifier.minify. by destruct (cache !! requestHash request). Qed.

Lemma settled_cache cache request outcome :
  LocalMinifier._resultCache (settled cache request outcome)
  = match outcome with
    | inr result => <[requestHash request := result]> cache
    | inl _ => cache
    end.
Proof.
  unfold LocalMinifier.settled. destruct outcome as [e | result]; [done |].
  by destruct (callback result).
Qed.

Lemma run_source events :
  forall cache h r,
    run cache events !! h = Some r ->
    cache !! h = Some r \/
    exists request,
      LocalMinifier.Settle request (inr r) ∈ events /\ requestHash request = h.
Proof.
  induction events as [| event events IH]; intros cache h r Hrun; [by left |].
  rewrite run_cons in Hrun. destruct (IH _ _ _ Hrun) as [Hstep | (request & Hin & Hh)].
  - destruct event as [request | request outcome]; simpl in Hstep.
    + rewrite minify_keeps_cache in Hstep. by left.
    + rewrite settled_cache in Hstep. destruct outcome as [e | result]; [by left |].
      rewrite lookup_insert in Hstep. case_decide; simplify_eq; [| by left].
      right. exists request. split; [left | done].
  - right. exists request. split; [by right | done].
Qed.

Lemma run_keeps events :
  forall cache h, is_Some (cache !! h) -> is_Some (run cache events !! h).
Proof.
  induction events as [| event events IH]; intros cache h Hh; [done |].
  rewrite run_cons. apply IH.
  destruct event as [request | request outcome]; simpl.
  - by rewrite minify_keeps_cache.
  - rewrite settled_cache. destruct outcome as [e | result]; [done |].
    rewrite lookup_insert. by case_decide.
Qed.

(** Whatever calls come in and whatever promises settle, in whatever order:
    an entry of the cache is never removed, and every entry of a cache that
    started empty is the result with which the promise of a request of that
    hash was fulfilled; a rejection leaves no entry. *)
Theorem cache_entries events :
  (forall cache h, is_Some (cache !! h) -> is_Some (run cache events !! h)) /\
  (forall h r,
      run ∅ events !! h = Some r ->
      exists request,
        LocalMinifier.Settle request (inr r) ∈ events /\ requestHash request = h).
Proof.
  split; [apply run_keeps |].
  intros h r Hrun. apply run_source in Hrun as [Hempty | Hsource]; [| done].
  by rewrite lookup_empty in Hempty.
Qed.

(** Once the promise of a request is fulfilled, every later call for the
    same hash is answered at once from the cache and starts no minification,
    whatever happened in between; the answer is a result with which a request
    of that hash was fulfilled. *)
Theorem minify_memoizes before request result between request' :
  requestHash request' = requestHash request ->
  let cache :=
    run ∅ (before ++ LocalMinifier.Settle request (inr result) :: between)%list in
  exists cached,
    minify cache request'
    = {| LocalMinifier._resultCache := cache;
         LocalMinifier.called := [cached];
         LocalMinifier.started := false;
         LocalMinifier.escaped := callback cached |} /\
    exists fulfilled,
      LocalMinifier.Settle fulfilled (inr cached)
        ∈ (before ++ LocalMinifier.Settle request (inr result) :: between)%list /\
      requestHash fulfilled = requestHash request.
Proof.
  intros Hhash cache.
  assert (Hcached : is_Some (cache !! requestHash request)).
  { unfold cache. rewrite run_app, run_cons. apply run_keeps.
    unfold LocalMinifier.step. rewrite settled_cache. by rewrite lookup_insert_eq. }
  destruct Hcached as [cached Hcached]. exists cached. split.
  - unfold LocalMinifier.minify. by rewrite Hhash, Hcached.
  - apply run_source in Hcached as [Hempty | Hsource]; [| done].
    by rewrite lookup_empty in Hempty.
Qed.

(** When a promise settles the callback is called once; but a callback
    that throws on the result of a fulfilled promise is called a second time,
    with the error it threw, and the result is cached all the same.  After a
    rejection the callback gets an error result with the hash of the request
    and the cache is as before. *)
Theorem settled_callbacks cache request :
  (forall result,
      callback result = None ->
      LocalMinifier.called (settled cache request (inr result)) = [result] /\
      LocalMinifier.escaped (settled cache request (inr result)) = None) /\
  (forall result e,
      callback result = Some e ->
      LocalMinifier.called (settled cache request (inr result))
      = [result; LocalMinifier.failure requestHash e request] /\
      LocalMinifier._resultCache (settled cache request (inr result)) !! requestHash request
      = Some result) /\
  (forall e,
      LocalMinifier.called (settled cache request (inl e))
      = [{| LocalMinifier.error := Some e; LocalMinifier.code := None;
            LocalMinifier.map := None; LocalMinifier.hash := requestHash request |}] /\
      LocalMinifier._resultCache (settled cache request (inl e)) = cache).
Proof.
  split; [| split].
  - intros result Hok. unfold LocalMinifier.settled. by rewrite Hok.
  - intros result e Hthrows. unfold LocalMinifier.settled. rewrite Hthrows. simpl.
    split; [done | by rewrite lookup_insert_eq].
  - done.
Qed.

End MinifierCache.

(** ** The further properties at work on samples *)

Lemma sample_parsers_settle : parsersSettle Sample.host.
Proof.
  repeat split; intros [value t c]; simpl; try done.
  - unfold Sample.byName. simpl. destruct value; try done. by case_bool_decide.
  - unfold Sample.byTag. simpl. by destruct value.
Qed.

Lemma sample_parsers_contextBlind : parsersContextBlind Sample.host.
Proof.
  repeat split; intros value c c' l; simpl; try done.
  unfold Sample.byName. simpl. destruct value; try done. by case_bool_decide.
Qed.

Lemma unknown_filter_error_witness :
  exists message,
    selectExpression Sample.rushConfig Sample.host 1
      (IFilterJson "upstream" (ISelectorJson "name" "A")) "cli"
    = Throws (SelectorError message) /\
    occursIn "upstream" message /\ occursIn "cli" message.
Proof.
  destruct (unknown_filter_error Sample.rushConfig Sample.host
              "upstream" (ISelectorJson "name" "A") "cli")
    as (message & Hstep & Hfilter & Hcontext).
  - discriminate.
  - rewrite !not_elem_of_cons. repeat split; try discriminate. apply not_elem_of_nil.
  - exists message. split; [apply Hstep | tauto].
Defined.

Lemma unknown_operator_error_witness :
  exists message,
    selectExpression Sample.rushConfig Sample.host 1
      (IOperatorJson "xor" [ISelectorJson "name" "A"; ISelectorJson "name" "B"]) "cli"
    = Throws (SelectorError message) /\
    occursIn "xor" message /\ occursIn "cli" message.
Proof.
  destruct (unknown_operator_error Sample.rushConfig Sample.host
              "xor" [ISelectorJson "name" "A"; ISelectorJson "name" "B"] "cli")
    as (message & Hstep & Hop & Hcontext).
  - discriminate.
  - rewrite !not_elem_of_cons. repeat split; try discriminate. apply not_elem_of_nil.
  - exists message. split; [apply Hstep | tauto].
Defined.

Lemma missing_operand_type_error_witness :
  evaluates Sample.rushConfig Sample.host
    (IOperatorJson "and" [ISelectorJson "tag" "frontend"]) "cli" (Throws TypeError).
Proof.
  apply (proj1 (proj2 (proj2 (missing_operand_type_error Sample.rushConfig Sample.host)))
           "and" (ISelectorJson "tag" "frontend") "cli" ["A"; "B"] (or_introl eq_refl)).
  apply (evaluates_at _ _ 1); [reflexivity | discriminate].
Defined.

Lemma not_selects_the_others_witness :
  exists others,
    evaluates Sample.rushConfig Sample.host
      (IOperatorJson "not" [ISelectorJson "tag" "frontend"]) "cli" (Returns others) /\
    (forall p, p ∈ others <-> p ∈ ["A"; "B"; "C"] /\ p ∉ ["A"; "B"]).
Proof.
  destruct (proj1 (not_selects_the_others Sample.rushConfig Sample.host
                     (ISelectorJson "tag" "frontend") "cli") ["A"; "B"])
    as (others & Heval & Hothers & _).
  - apply (evaluates_at _ _ 1); [reflexivity | discriminate].
  - exists others. split; [exact Heval | exact Hothers].
Defined.

Lemma repeated_negation_witness :
  evaluates Sample.rushConfig Sample.host
    (IOperatorJson "not"
       [IOperatorJson "not" [IOperatorJson "not" [ISelectorJson "tag" "frontend"]]]) "cli"
    (Returns ["C"]).
Proof.
  apply (proj2 (repeated_negation Sample.rushConfig Sample.host
                  (ISelectorJson "tag" "frontend") "cli")).
  apply (evaluates_at _ _ 2); [reflexivity | discriminate].
Defined.

Lemma json_selector_evaluates_its_file_witness :
  evaluates Sample.rushConfig Sample.host (ISelectorJson "json" "frontend.json") "cli"
    (Returns ["A"; "B"]).
Proof.
  apply (json_selector_evaluates_its_file Sample.rushConfig Sample.host
           "frontend.json" "cli" (ISelectorJson "tag" "frontend") eq_refl eq_refl).
  apply (evaluates_at _ _ 1); [reflexivity | discriminate].
Defined.

Lemma falsy_file_reported_missing_witness :
  selectExpression Sample.rushConfig SampleNull.host 1 (ISelectorJson "json" "null.json") "cli"
  = Throws (SelectorError (fileNotFoundMessage "/repo/null.json" "cli")).
Proof.
  apply (falsy_file_reported_missing Sample.rushConfig SampleNull.host
           "null.json" "cli" JsNull eq_refl eq_refl 0).
Defined.

Lemma json_selector_needs_a_string_witness :
  selectExpression Sample.rushConfig Sample.host 1
    (JsObject [("scope", JsString "json"); ("value", JsNumber 5)]) "cli"
  = Throws TypeError.
Proof.
  apply (json_selector_needs_a_string Sample.rushConfig Sample.host (JsNumber 5) "cli" 0).
  discriminate.
Defined.

Lemma json_free_expression_completes_witness :
  exists outcome,
    evaluates Sample.rushConfig Sample.host
      (IOperatorJson "and"
         [IFilterJson "to" (ISelectorJson "name" "A"); ISelectorJson "tag" "frontend"])
      "cli" outcome.
Proof.
  apply (json_free_expression_completes Sample.rushConfig Sample.host
           (IOperatorJson "and"
              [IFilterJson "to" (ISelectorJson "name" "A"); ISelectorJson "tag" "frontend"])
           "cli" sample_parsers_settle eq_refl).
Defined.

Lemma context_only_in_errors_witness :
  evaluates Sample.rushConfig Sample.host
    (IFilterJson "to" (ISelectorJson "name" "B")) "JSON file a.json in cli" (Returns ["B"; "C"]).
Proof.
  apply (context_only_in_errors Sample.rushConfig Sample.host
           (IFilterJson "to" (ISelectorJson "name" "B")) "cli" "JSON file a.json in cli"
           ["B"; "C"] sample_parsers_contextBlind).
  apply (evaluates_at _ _ 2); [reflexivity | discriminate].
Defined.

Lemma nameAndVersion_round_trip_witness :
  AddAction.nameAndVersion "lodash@^4.17.0" = ("lodash", Some "^4.17.0") /\
  AddAction.nameAndVersion "@types/node@18.0.0" = ("@types/node", Some "18.0.0").
Proof.
  split.
  - apply (proj1 (nameAndVersion_round_trip "lodash" "^4.17.0" eq_refl eq_refl
                    ltac:(discriminate))).
  - apply (proj1 (proj2 (proj2 (nameAndVersion_round_trip "types/node" "18.0.0"
                                  eq_refl eq_refl ltac:(discriminate))))).
Defined.

Lemma nameAndVersion_drops_the_rest_witness :
  AddAction.nameAndVersion "react@17@next" = ("react", Some "17").
Proof.
  apply (proj1 (nameAndVersion_drops_the_rest "react" "17" "next" eq_refl eq_refl
                  ltac:(discriminate))).
Defined.

Lemma sample_run_returns : exists options, AddAction.sampleRun = Returns options.
Proof. eexists. vm_compute. reflexivity. Qed.


Lemma runAsync_options_witness :
  exists options,
    AddAction.sampleRun = Returns options /\
    AddAction.projects options = ["web"] /\
    AddAction.addedPackageNames options = ["lodash"; "@types/node"; "react"].
Proof.
  destruct sample_run_returns as [options Hrun].
  exists options. split; [exact Hrun |]. unfold AddAction.sampleRun in Hrun.
  destruct (runAsync_options _ _ _ _ _ _ _ _ options Hrun) as (Hprojects & Hnames & _).
  split; [by rewrite Hprojects | by rewrite Hnames].
Defined.

Lemma runAsync_versions_and_styles_witness :
  exists options,
    AddAction.sampleRun = Returns options /\
    AddAction.addedInitialVersions options !! "react" = Some (Some "latest") /\
    AddAction.addedRangeStyles options !! "react" = Some AddAction.Tilde.
Proof.
  destruct sample_run_returns as [options Hrun].
  exists options. split; [exact Hrun |]. unfold AddAction.sampleRun in Hrun.
  destruct (runAsync_versions_and_styles _ _ _ _ _ _ _ _ options Hrun)
    as (Hagree & _ & Hlast).
  assert (Hversion : AddAction.addedInitialVersions options !! "react" = Some (Some "latest")).
  { apply (Hlast ["lodash@^4.17.0"; "@types/node"] "react@latest" []); [reflexivity |].
    apply not_elem_of_nil. }
  split; [exact Hversion |]. by rewrite Hagree, Hversion.
Defined.

Lemma cache_entries_witness :
  is_Some
    (LocalMinifier.run (fun request : string * string => request.1) (fun _ => None)
       {["h1" := {| LocalMinifier.error := None; LocalMinifier.code := Some "a()";
                    LocalMinifier.map := None; LocalMinifier.hash := "h1" |}]}
       [LocalMinifier.Call ("h2", "function b(){}");
        LocalMinifier.Settle ("h2", "function b(){}") (inl TypeError)]
     !! "h1").
Proof.
  apply (proj1 (cache_entries (fun request : string * string => request.1) (fun _ => None) _)).
  rewrite lookup_singleton_eq. by eexists.
Defined.

Lemma minify_memoizes_witness :
  let minified :=
    {| LocalMinifier.error := None; LocalMinifier.code := Some "a()";
       LocalMinifier.map := None; LocalMinifier.hash := "h1" |} in
  let events :=
    [LocalMinifier.Call ("h1", "function a(){}");
     LocalMinifier.Settle ("h1", "function a(){}") (inr minified);
     LocalMinifier.Call ("h2", "function b(){}")] in
  exists cached,
    LocalMinifier.called
      (LocalMinifier.minify (fun request : string * string => request.1) (fun _ => None)
         (LocalMinifier.run (fun request : string * string => request.1) (fun _ => None)
            ∅ events)
         ("h1", "function a(){ }"))
    = [cached].
Proof.
  intros minified events.
  destruct (minify_memoizes (fun request : string * string => request.1) (fun _ => None)
              [LocalMinifier.Call ("h1", "function a(){}")]
              ("h1", "function a(){}") minified
              [LocalMinifier.Call ("h2", "function b(){}")]
              ("h1", "function a(){ }") eq_refl)
    as (cached & Hminify & _).
  exists cached. exact (f_equal LocalMinifier.called Hminify).
Defined.

Lemma settled_callbacks_witness :
  let minified :=
    {| LocalMinifier.error := None; LocalMinifier.code := Some "a()";
       LocalMinifier.map := None; LocalMinifier.hash := "h1" |} in
  let throwing :=
    fun result : LocalMinifier.IModuleMinificationResult =>
      match LocalMinifier.error result with
      | None => Some (OtherError "Error" "emit failed")
      | Some _ => None
      end in
  LocalMinifier.called
    (LocalMinifier.settled (fun request : string * string => request.1) throwing
       ∅ ("h1", "function a(){}") (inr minified))
  = [minified;
     {| LocalMinifier.error := Some (OtherError "Error" "emit failed");
        LocalMinifier.code := None; LocalMinifier.map := None; LocalMinifier.hash := "h1" |}].
Proof.
  intros minified throwing.
  apply (proj1 (proj1 (proj2 (settled_callbacks (fun request : string * string => request.1)
                                throwing ∅ ("h1", "function a(){}")))
                  minified (OtherError "Error" "emit failed") eq_refl)).
Defined.

Lemma sample_closure_within edges rounds (l : list string) :
  (forall p, edges p ⊆ projects Sample.rushConfig) ->
  l ⊆ projects Sample.rushConfig ->
  Sample.closure edges rounds l ⊆ projects Sample.rushConfig.
Proof.
  intros Hedges. revert l. induction rounds as [| rounds IH]; intros l Hl; simpl.
  - intros p Hp. apply Hl. by apply new_Set_elements.
  - apply IH. intros p Hp. apply elem_of_app in Hp as [Hp | Hp]; [by apply Hl |].
    apply list_elem_of_In, in_flat_map in Hp as (q & _ & Hp).
    by apply (Hedges q), list_elem_of_In.
Qed.

Lemma sample_selects_from_monorepo : selectsFromMonorepo Sample.rushConfig Sample.host.
Proof.
  assert (Hdeps : forall p, Sample.dependencies p ⊆ projects Sample.rushConfig).
  { intros p q. unfold Sample.dependencies. simpl.
    repeat case_match; rewrite ?elem_of_cons, ?elem_of_nil; tauto. }
  assert (Hcons : forall p, Sample.consumers p ⊆ projects Sample.rushConfig).
  { intros p q. unfold Sample.consumers. simpl.
    repeat case_match; rewrite ?elem_of_cons, ?elem_of_nil; tauto. }
  repeat split.
  - intros [value t c] l. simpl. unfold Sample.byName. simpl. destruct value; try done.
    case_bool_decide; [| done]. intros [= <-] p Hp.
    apply list_elem_of_singleton in Hp. by subst.
  - intros options l [= <-] p Hp. by apply elem_of_nil in Hp.
  - intros [value t c] l. simpl. unfold Sample.byTag. simpl.
    destruct value; intros [= <-] p; simpl;
      repeat case_match; rewrite ?elem_of_cons, ?elem_of_nil; tauto.
  - intros options l [= <-] p Hp. by apply elem_of_nil in Hp.
  - intros l Hl. exact (sample_closure_within Sample.dependencies 3 l Hdeps Hl).
  - intros l Hl. exact (sample_closure_within Sample.consumers 3 l Hcons Hl).
  - intros a b Ha Hb p Hp. simpl in Hp. apply list_elem_of_filter in Hp as [_ Hp].
    by apply Ha.
  - intros a b Ha Hb p Hp. simpl in Hp.
    apply new_Set_elements, elem_of_app in Hp as [Hp | Hp]; auto.
Qed.

Lemma selectExpression_within_witness :
  withinMonorepo Sample.rushConfig
    (selectExpression Sample.rushConfig Sample.host 3
       (IOperatorJson "or"
          [IFilterJson "from" (ISelectorJson "name" "C");
           ISelectorJson "json" "frontend.json"])
       "cli").
Proof.
  apply (selectExpression_within Sample.rushConfig Sample.host 3 _ "cli"
           sample_selects_from_monorepo).
Defined.
